(** * ShiplightAI/examples: example drivers over the Shiplight agent SDK

    The repository holds example scripts (TypeScript) that call into the
    closed-source package [@shiplightai/sdk], plus one Playwright helper
    file ([helpers/cart.ts]).  This development embeds

    - the variable store contract the examples rely on
      ([agent.setVariable], [agent.getVariable], [ctx.variableStore.set],
      [$name] and [{{ name }}] placeholders, masking of sensitive values);
    - the cart helpers [getCartCount] and [clearCart];
    - the example scripts themselves, as programs in a small monad with a
      trace of external calls, JavaScript exceptions and [process.exit].

    JavaScript strings are modelled as [string]; every character of the
    texts the scripts handle that matters to a statement below is ASCII. *)

From Stdlib Require Import ZArith Ascii String List Lia DecimalString DecimalNat.
From stdpp Require Import base gmap strings list fin_maps.

Local Open Scope stdpp_scope.

(** ** Strings *)

Module Str.

(** [forall_chars p s]: every character of [s] satisfies [p]. *)
Fixpoint forall_chars (p : ascii → bool) (s : string) : bool :=
  match s with
  | EmptyString => true
  | String c s' => p c && forall_chars p s'
  end.

(** [starts_with p s]: [s] is not empty and its first character satisfies [p]. *)
Definition starts_with (p : ascii → bool) (s : string) : bool :=
  match s with
  | EmptyString => false
  | String c _ => p c
  end.

(** The longest prefix of [s] whose characters satisfy [p], and the rest. *)
Fixpoint span (p : ascii → bool) (s : string) : string * string :=
  match s with
  | EmptyString => (EmptyString, EmptyString)
  | String c s' =>
      if p c then let '(a, b) := span p s' in (String c a, b) else (EmptyString, s)
  end.


Definition in_range (lo hi : nat) (c : ascii) : bool :=
  (lo <=? nat_of_ascii c)%nat && (nat_of_ascii c <=? hi)%nat.

Definition is_digit (c : ascii) : bool := in_range 48 57 c.

(** A word character, [\w] of a JavaScript regular expression:
    [A-Z], [a-z], [0-9] and [_]. *)
Definition is_word (c : ascii) : bool :=
  in_range 65 90 c || in_range 97 122 c || is_digit c || Ascii.eqb c "_"%char.

(** Blank characters tolerated inside the braces: tab, line feed, vertical
    tab, form feed, carriage return and space. *)
Definition is_blank (c : ascii) : bool := Ascii.is_space c.

End Str.

(** ** The variable store *)

Module VariableStore.

(** Modelled from the spec: the implementation of the variable store lives
    in the SDK package [@shiplightai/sdk], which is not part of the
    repository; the scripts only call it ([agent.setVariable],
    [agent.getVariable], [ctx.variableStore.set], and instructions holding
    [$name] and [{{ name }}]).  A variable is
    [{ name : string (unique key), value : string, sensitive : bool }]. *)
Record variable := { value : string; sensitive : bool }.

(** Modelled from the spec: the store is a mapping from names to variables,
    so names are unique within a store. *)
Abbreviation t := (gmap string variable).

(** A method of the store object: it may read and mutate the mapping. *)
Definition method (A : Type) : Type := t → A * t.

(** Modelled from the spec: the fixed mask token. *)
Definition mask_token : string := "***".

(** Modelled from the spec: [set(name, value, sensitive=false)] inserts or
    overwrites the named variable and returns nothing. *)
Definition set (name val : string) (sens : bool) : method unit :=
  λ store, (tt, <[name := {| value := val; sensitive := sens |}]> store).

(** Modelled from the spec: [get(name)] returns the stored value, or an
    absent result if unset; it does not mask. *)
Definition get (name : string) : method (option string) :=
  λ store, (value <$> store !! name, store).

(** Modelled from the spec: the placeholder grammar.  [$name] is a dollar
    sign followed by the longest run of word characters (at least one);
    [{{ name }}] is two opening braces, blanks, a name, blanks and two
    closing braces.  The result is the name and the length of the
    placeholder. *)
Definition dollar_at (s : string) : option (string * nat) :=
  match s with
  | String "$"%char rest =>
      let '(name, _) := Str.span Str.is_word rest in
      match name with
      | EmptyString => None
      | _ => Some (name, 1 + String.length name)
      end
  | _ => None
  end.

(** Modelled from the spec: [{{ name }}], "whitespace-tolerant inside
    braces". *)
Definition braces_at (s : string) : option (string * nat) :=
  match s with
  | String "{"%char (String "{"%char rest) =>
      let '(ws1, r1) := Str.span Str.is_blank rest in
      let '(name, r2) := Str.span Str.is_word r1 in
      let '(ws2, r3) := Str.span Str.is_blank r2 in
      match name, r3 with
      | String _ _, String "}"%char (String "}"%char _) =>
          Some (name, 2 + String.length ws1 + String.length name
                        + String.length ws2 + 2)
      | _, _ => None
      end
  | _ => None
  end.

(** Modelled from the spec: the placeholder that starts the text, if any. *)
Definition placeholder_at (s : string) : option (string * nat) :=
  match dollar_at s with
  | Some r => Some r
  | None => braces_at s
  end.

(** Modelled from the spec: one left-to-right pass over the text.  At a
    placeholder whose name [lookup] knows, the value is emitted; at any other
    placeholder, its own text ("unresolved placeholders are left verbatim");
    the pass resumes after the placeholder ([skip] counts the characters of
    it still to pass), and a value is never scanned again. *)
Fixpoint scan (lookup : string → option string) (skip : nat) (s : string) : string :=
  match s with
  | EmptyString => EmptyString
  | String c s' =>
      match skip with
      | S k => scan lookup k s'
      | O =>
          match placeholder_at s with
          | Some (name, len) =>
              match lookup name with
              | Some v => v
              | None => String.substring 0 len s
              end +:+ scan lookup (len - 1) s'
          | None => String c (scan lookup 0 s')
          end
      end
  end.

(** Modelled from the spec: the substitution [resolve] and [renderForLog]
    share. *)
Definition substitute (lookup : string → option string) (text : string) : string :=
  scan lookup 0 text.

(** Modelled from the spec: [resolve(text)] replaces every [$name] and
    [{{ name }}] by the variable's value. *)
Definition resolve (text : string) : method string :=
  λ store, (substitute (λ name, value <$> store !! name) text, store).

(** Modelled from the spec: what a variable shows as in a log, the mask
    token when it is sensitive. *)
Definition shown (v : variable) : string :=
  if sensitive v then mask_token else value v.

(** Modelled from the spec: [renderForLog(text)] is the same substitution,
    but a variable marked sensitive is replaced by the mask token. *)
Definition renderForLog (text : string) : method string :=
  λ store, (substitute (λ name, shown <$> store !! name) text, store).

(** Modelled from the spec: the store an agent starts with, from the
    [variables] and [sensitiveKeys] options of [createAgent]. *)
Definition create (variables : list (string * string)) (sensitiveKeys : list string) : t :=
  foldl (λ store kv, snd (set kv.1 kv.2 (bool_decide (kv.1 ∈ sensitiveKeys)) store))
        ∅ variables.

(** Running methods one after the other on the same store object. *)
Definition exec {A} (m : method A) (store : t) : t := snd (m store).
Definition eval {A} (m : method A) (store : t) : A := fst (m store).

(** The store as a log shows it: the value of every sensitive variable
    replaced by the mask token. *)
Definition masked (store : t) : t :=
  (λ v, {| value := shown v; sensitive := sensitive v |}) <$> store.

(** Two stores that differ at most in the values of sensitive variables:
    the same names, the same flags, the same values where not sensitive. *)
Definition low_equivalent (store1 store2 : t) : Prop :=
  ∀ name,
    match store1 !! name, store2 !! name with
    | Some v1, Some v2 =>
        sensitive v1 = sensitive v2 ∧ (sensitive v1 = false → value v1 = value v2)
    | None, None => True
    | _, _ => False
    end.

End VariableStore.

(** ** Texts as sequences of plain chunks and placeholders *)

Module Template.








(** A name: word characters, at least one. *)
Definition is_name (name : string) : bool :=
  match name with
  | EmptyString => false
  | _ => Str.forall_chars Str.is_word name
  end.


End Template.

(** ** JavaScript values, errors and the outside world *)

Module JS.

(** A thrown [Error]; the scripts only read [error.message]. *)
Record Error := { message : string }.

(** What a call that can throw comes back with. *)
Inductive result (A : Type) : Type :=
| Ok (a : A)
| Err (e : Error).
Arguments Ok {A} a.
Arguments Err {A} e.

(** The arguments the scripts hand to [console.log] and [console.error]. *)
Inductive jsval :=
| VStr (s : string)
| VBool (b : bool)
| VUndefined
| VError (e : Error).

(** [string | undefined] as a console argument. *)
Definition of_optional (o : option string) : jsval :=
  match o with
  | Some s => VStr s
  | None => VUndefined
  end.

(** Conversions done by a template literal [`${x}`]. *)
Definition show_bool (b : bool) : string := if b then "true" else "false".
Definition show_optional (o : option string) : string :=
  match o with
  | Some s => s
  | None => "undefined"
  end.

(** Truthiness of [string | undefined]: [undefined] and [''] are falsy. *)
Definition truthy (o : option string) : bool :=
  match o with
  | Some (String _ _) => true
  | _ => false
  end.

(** [s?.substring(0, n)] *)
Definition substring_opt (n : nat) (o : option string) : option string :=
  String.substring 0 n <$> o.

(** The callbacks handed to [agent.step] are sequences of these. *)
Inductive PageAction :=
| Click (selector : string) (timeout : Z)
| Fill (selector value : string) (timeout : Z).

(** [AgentStepResult], as the scripts read it: [success] and the optional
    [details]. *)
Record AgentStepResult := { success : bool; details : option string }.

Inductive LogLevel := INFO.

Record SdkConfig := {
  logLevel : option LogLevel;
  env : list (string * string)
}.

Record AgentConfig := {
  model : string;
  variables : list (string * string);
  sensitiveKeys : list string;
  testDataDir : option string
}.

Record LoginOptions := {
  url : string;
  username : string;
  password : string
}.

(** A field of a zod object schema. *)
Inductive FieldType := ZString | ZNumber.
Record SchemaField := {
  field : string;
  type : FieldType;
  optional : bool;
  describe : string
}.

(** Every operation the scripts perform on something outside themselves,
    indexed by what comes back.  An operation that can throw comes back with
    a [result].  The scripts use one browser, one page and one agent each,
    so the objects are not named. *)
Inductive call : Type → Type :=
(* Node *)
| DotenvConfig (path : string) : call unit
| Import (specifier : string) : call (result unit)
| GetEnv (name : string) : call (option string)
| ConsoleLog (args : list jsval) : call unit
| ConsoleError (args : list jsval) : call unit
| ProcessExit (code : Z) : call unit
| ExistsSync (path : string) : call bool
| MkdirSync (path : string) (recursive : bool) : call (result unit)
| WriteFileSync (path data : string) : call (result unit)
(* Playwright *)
| ChromiumLaunch (headless : bool) : call (result unit)
| BrowserNewContext : call (result unit)
| ContextNewPage : call (result unit)
| BrowserNewPage : call (result unit)
| BrowserClose : call (result unit)
| PageGoto (url : string) : call (result unit)
| PageFill (selector value : string) : call (result unit)
| PageClick (selector : string) : call (result unit)
| PageWaitForLoadState (state : string) : call (result unit)
| PageWaitForTimeout (ms : Z) : call (result unit)
| LocatorIsVisible (selector : string) : call (result bool)
| LocatorTextContent (selector : string) : call (result (option string))
| LocatorCount (selector : string) : call (result nat)
| LocatorNthClick (selector : string) (index : nat) : call (result unit)
(* @shiplightai/sdk *)
| ConfigureSdk (cfg : SdkConfig) : call (result unit)
| CreateAgent (cfg : AgentConfig) : call (result unit)
| AgentAct (instruction : string) : call (result unit)
| AgentAssert (instruction : string) : call (option string)
| AgentEvaluate (instruction : string) : call (result bool)
| AgentExtract (description variableName : string) : call (result unit)
| AgentLogin (opts : LoginOptions) : call (result bool)
| AgentStep (code : list PageAction) (description : string) (maxSteps : nat)
    : call AgentStepResult
| AgentRegisterAction (name description : string) (schema : list SchemaField)
    : call (result unit)
| AgentGetVariable (name : string) : call (option string)
| AgentSetVariable (name value : string) (sensitive : bool) : call (result unit).

Inductive event : Type :=
| Ev : ∀ A : Type, call A → event.
Arguments Ev {A} c.

(** The world outside the script: it answers every call, knowing what the
    script did before, and holds Node's pure path functions. *)
Record World := {
  respond : ∀ A : Type, list event → call A → A;
  import_meta_url : string;
  fileURLToPath : string → string;
  dirname : string → string;
  resolve : list string → string
}.

(** How a computation ends: with a value, with a thrown error, or because
    [process.exit] ended the process. *)
Inductive outcome (A : Type) : Type :=
| Ret (a : A)
| Throw (e : Error)
| Exit (code : Z).
Arguments Ret {A} a.
Arguments Throw {A} e.
Arguments Exit {A} code.

(** A script: given the world and the trace so far, an outcome and the
    trace extended by the calls made. *)
Definition M (A : Type) : Type := World → list event → outcome A * list event.

#[global] Instance M_ret : MRet M := λ A a _ tr, (Ret a, tr).

#[global] Instance M_bind : MBind M := λ A B f m w tr,
  match m w tr with
  | (Ret a, tr') => f a w tr'
  | (Throw e, tr') => (Throw e, tr')
  | (Exit code, tr') => (Exit code, tr')
  end.

Definition throw {A} (e : Error) : M A := λ _ tr, (Throw e, tr).

(** A call that cannot throw. *)
Definition ask {A} (c : call A) : M A :=
  λ w tr, (Ret (respond w A tr c), tr ++ [Ev c]).

(** A call that can throw: a function that may throw, or the [await] of a
    promise that may reject. *)
Definition await {A} (c : call (result A)) : M A :=
  r ← ask c;
  match r with
  | Ok a => mret a
  | Err e => throw e
  end.

Definition world : M World := λ w tr, (Ret w, tr).

(** [process.exit(code)]: nothing runs after it, no handler, no [finally]. *)
Definition process_exit {A} (code : Z) : M A :=
  λ _ tr, (Exit code, tr ++ [Ev (ProcessExit code)]).

Definition console_log (args : list jsval) : M unit := ask (ConsoleLog args).
Definition console_error (args : list jsval) : M unit := ask (ConsoleError args).

(** [try { m } catch (error) { h error }] *)
Definition try_catch {A} (m : M A) (h : Error → M A) : M A := λ w tr,
  match m w tr with
  | (Throw e, tr') => h e w tr'
  | r => r
  end.

(** [try { m } finally { f }]: [f] runs after a normal or abrupt end of
    [m]; when [f] itself ends abruptly, that takes over. *)
Definition try_finally {A} (m : M A) (f : M unit) : M A := λ w tr,
  match m w tr with
  | (Exit code, tr') => (Exit code, tr')
  | (r, tr') =>
      match f w tr' with
      | (Ret _, tr'') => (r, tr'')
      | (Throw e, tr'') => (Throw e, tr'')
      | (Exit code, tr'') => (Exit code, tr'')
      end
  end.

(** [promise.catch(handler)] *)
Definition promise_catch (m : M unit) (handler : Error → M unit) : M unit :=
  try_catch m handler.

(** What [console.log] and [console.error] printed, in order. *)
Definition logged (tr : list event) : list (list jsval) :=
  omap (λ e, match e with
             | Ev (ConsoleLog args) => Some args
             | _ => None
             end) tr.

Definition errors_logged (tr : list event) : list (list jsval) :=
  omap (λ e, match e with
             | Ev (ConsoleError args) => Some args
             | _ => None
             end) tr.

(** Whether the event configures the SDK or creates an agent. *)
Definition uses_sdk (e : event) : bool :=
  match e with
  | Ev (ConfigureSdk _) | Ev (CreateAgent _) => true
  | _ => false
  end.

End JS.

(** ** What the example scripts share *)

Module Script.
Import JS.

(** The line feed of ['\n']. *)
Definition nl : string := String "010"%char EmptyString.

(** The double quote, and a text between double quotes. *)
Definition dq : string := String "034"%char EmptyString.
Definition quoted (text : string) : string := dq +:+ text +:+ dq.

(** A number in a template literal. *)
Definition show_nat (n : nat) : string := NilZero.string_of_uint (Nat.to_uint n).

(** [console.log(text)] *)
Definition log (text : string) : M unit := console_log [VStr text].

(** [const __filename = fileURLToPath(import.meta.url);
     const __dirname = dirname(__filename);] *)
Definition __dirname : M string :=
  w ← world; mret (dirname w (fileURLToPath w (import_meta_url w))).

(** [resolve(...segments)] of Node's [path]. *)
Definition path_resolve (segments : list string) : M string :=
  w ← world; mret (resolve w segments).

(** The head of every script: load [.env], then import Playwright and the
    SDK dynamically. *)
Definition load (dotenv : list string) : M unit :=
  dir ← __dirname;
  path ← path_resolve (dir :: dotenv);
  ask (DotenvConfig path);;
  await (Import "playwright");;
  await (Import "@shiplightai/sdk").

(** [if (!apiKey) { console.error(error); console.log(hint); process.exit(1); }]
    after which [apiKey] is a string that is not empty. *)
Definition api_key_guard (apiKey : option string) (error hint : string) : M string :=
  match apiKey with
  | Some (String c key) => mret (String c key)
  | _ =>
      console_error [VStr error];;
      log hint;;
      process_exit 1
  end.

(** [const apiKey = process.env.ANTHROPIC_API_KEY;] and the guard. *)
Definition anthropic_api_key : M string :=
  apiKey ← ask (GetEnv "ANTHROPIC_API_KEY");
  api_key_guard apiKey
    "Error: ANTHROPIC_API_KEY not set"
    "   Add to .env file or get your key from: https://console.anthropic.com/settings/keys".

(** [const apiKey = process.env.GOOGLE_API_KEY || process.env.GOOGLE_GENERATIVE_AI_API_KEY;]
    and the guard; [||] reads its right operand only when the left one is
    falsy. *)
Definition google_api_key (error : string) : M string :=
  key ← ask (GetEnv "GOOGLE_API_KEY");
  apiKey ← (if truthy key then mret key else ask (GetEnv "GOOGLE_GENERATIVE_AI_API_KEY"));
  api_key_guard apiKey error
    "   Add to .env file or get your key from: https://aistudio.google.com/app/apikey".

Definition agent_config (model : string) : AgentConfig :=
  {| model := model; variables := []; sensitiveKeys := []; testDataDir := None |}.

(** Modelled from the spec: [agent.assert(page, instruction)] "fails with
    an error when the asserted condition is false".  The agent's verdict is
    the world's answer: [None] when the condition holds, [Some reason] when
    it is false, and [reason] is the message of the error thrown. *)
Definition agent_assert (instruction : string) : M unit :=
  verdict ← ask (AgentAssert instruction);
  match verdict with
  | None => mret tt
  | Some reason => throw {| message := reason |}
  end.

(** Modelled from the spec: [agent.step(page, code, description,
    { maxSteps })] "returns [{success, details}]"; a failure is reported in
    the result, so the call does not throw. *)
Definition agent_step (code : list PageAction) (description : string) (maxSteps : nat)
  : M AgentStepResult :=
  ask (AgentStep code description maxSteps).

(** [list.forEach(f)] *)
Fixpoint for_each {A} (l : list A) (f : A → M unit) : M unit :=
  match l with
  | [] => mret tt
  | x :: l' => f x;; for_each l' f
  end.

End Script.

(** ** [parseInt(string, 10)] *)

Module Number.

(** The Number values [parseInt] can return: [NaN], the infinities, [-0],
    and the integers that are doubles. *)
Inductive t :=
| NaN
| Infinity (negative : bool)
| NegZero
| Int (z : Z).

(** The double nearest to the positive integer [n] (ties to even):
    integers of at most 53 bits are doubles, longer ones lose their low
    bits, and from [2^1024 - 2^970] on the result is [Infinity]. *)
Definition of_positive (negative : bool) (n : Z) : t :=
  let bits := (Z.log2 n + 1)%Z in
  let sign := (if negative then -1 else 1)%Z in
  if (bits <=? 53)%Z then Int (sign * n)
  else
    let k := (bits - 53)%Z in
    let q := Z.shiftr n k in
    let r := Z.land n (Z.ones k) in
    let half := Z.shiftl 1 (k - 1) in
    let q' := (if (half <? r) || ((r =? half) && Z.odd q) then q + 1 else q)%Z in
    let v := Z.shiftl q' k in
    if (2 ^ 1024 <=? v)%Z then Infinity negative else Int (sign * v).

Definition digit_value (c : ascii) : Z := Z.of_nat (nat_of_ascii c) - 48.

(** The integer a string of decimal digits denotes, read left to right. *)
Fixpoint digits_value (acc : Z) (digits : string) : Z :=
  match digits with
  | EmptyString => acc
  | String c rest => digits_value (10 * acc + digit_value c) rest
  end.

(** [parseInt(string, 10)] of ECMAScript: leading white space is skipped,
    one sign is read, then the longest run of decimal digits; no digit gives
    [NaN], and what follows the digits is ignored.  (ECMAScript also skips
    the white space characters outside ASCII, and lets an implementation
    approximate a numeral of more than 20 digits; here the numeral is
    rounded as it is.) *)
Definition parseInt_10 (inputString : string) : t :=
  let '(_, trimmed) := Str.span Str.is_blank inputString in
  let '(negative, unsigned) :=
    match trimmed with
    | String "-"%char rest => (true, rest)
    | String "+"%char rest => (false, rest)
    | _ => (false, trimmed)
    end in
  let '(digits, _) := Str.span Str.is_digit unsigned in
  match digits with
  | EmptyString => NaN
  | _ =>
      let mathInt := digits_value 0 digits in
      if (mathInt =? 0)%Z then (if negative then NegZero else Int 0)
      else of_positive negative mathInt
  end.

End Number.

(** ** [helpers/cart.ts] *)

Module Cart.
Import JS.

(** [getCartCount(page)]: the number of items in the shopping cart, [0] if
    the cart badge is not visible. *)
Definition getCartCount : M Number.t :=
  let badge := ".shopping_cart_badge" in
  visible ← await (LocatorIsVisible badge);
  if visible : bool then
    text ← await (LocatorTextContent badge);
    mret (Number.parseInt_10 (default "0" text))
  else
    mret (Number.Int 0).

(** [for (let i = count - 1; i >= 0; i--) await removeButtons.nth(i).click();]
    with [n = i + 1] iterations left. *)
Fixpoint click_down (removeButtons : string) (n : nat) : M unit :=
  match n with
  | O => mret tt
  | S i =>
      await (LocatorNthClick removeButtons i);;
      click_down removeButtons i
  end.

(** [clearCart(page)]: visit the cart page and click each "Remove" button. *)
Definition clearCart : M unit :=
  await (PageGoto "/cart.html");;
  let removeButtons := "button.cart_button" in
  count ← await (LocatorCount removeButtons);
  click_down removeButtons count.

End Cart.

(** ** [sdk-examples/] *)

Module SdkExamples.
Import JS Script.

(** *** [quickStart.ts] *)

Definition quickStart : M unit :=
  log "=== Quick Start Example ===";;
  log ("Model: claude-haiku-4-5" +:+ nl);;
  await (CreateAgent (agent_config "claude-haiku-4-5"));;
  await (ChromiumLaunch false);;
  await BrowserNewPage;;
  try_finally
    (try_catch
       (log "1. Logging in to Sauce Labs Demo...";;
        await (AgentLogin {| url := "https://www.saucedemo.com/";
                             username := "standard_user";
                             password := "secret_sauce" |});;
        log ("   Login successful!" +:+ nl);;
        log "2. Verifying login...";;
        agent_assert "Products page is visible";;
        log ("   Products page verified!" +:+ nl);;
        log "3. Extracting product data...";;
        await (AgentExtract "the first product name" "productName");;
        productName ← ask (AgentGetVariable "productName");
        log ("   First product: " +:+ show_optional productName +:+ nl);;
        log "=== Quick Start Complete ===";;
        log (nl +:+ "This example demonstrated:");;
        log "  - configureSdk() to set API key";;
        log "  - createAgent() to create an agent";;
        log "  - agent.login() to authenticate";;
        log "  - agent.assert() to verify conditions";;
        log "  - agent.extract() to get data from the page")
       (λ error,
          console_error [VStr "Quick start failed:"; VError error];;
          throw error))
    (await (PageWaitForTimeout 3000);;
     await BrowserClose).

Definition quickStart_ts : M unit :=
  load [".env"];;
  apiKey ← anthropic_api_key;
  await (ConfigureSdk {| logLevel := None; env := [("ANTHROPIC_API_KEY", apiKey)] |});;
  promise_catch quickStart (λ error, console_error [VError error]).

(** *** [customActions.ts] *)

(** What a custom action returns. *)
Record ActionResult := { success : bool; message : string }.

(** The [ctx] handed to [execute]: it exposes the agent's variable store,
    which [execute] mutates. *)
Record Ctx := { variableStore : VariableStore.t }.

(** [ctx.variableStore.set(name, value)]; [sensitive] defaults to [false]. *)
Definition variableStore_set (name value : string) (ctx : Ctx) : Ctx :=
  {| variableStore := VariableStore.exec (VariableStore.set name value false) (variableStore ctx) |}.

(** The arguments of the three actions, as their schemas give them. *)
Record EmailArgs := { email_address : string; timeout_seconds : option Z }.
Record SmsArgs := { phone_number : string }.
Record UserArgs := { user_id : string }.

Definition get_email_verification_code_schema : list SchemaField :=
  [ {| field := "email_address"; type := ZString; optional := false;
       describe := "Email address to check" |};
    {| field := "timeout_seconds"; type := ZNumber; optional := true;
       describe := "How long to wait for email" |} ].

(** [execute] of [get_email_verification_code] *)
Definition get_email_verification_code (args : EmailArgs) (ctx : Ctx)
  : M (ActionResult * Ctx) :=
  log ("Checking email for: " +:+ email_address args);;
  let code := "123456" in
  let ctx := variableStore_set "verificationCode" code ctx in
  mret ({| success := true; message := "Found verification code: " +:+ code |}, ctx).

Definition send_sms_code_schema : list SchemaField :=
  [ {| field := "phone_number"; type := ZString; optional := false;
       describe := "Phone number to send SMS to" |} ].

(** [execute] of [send_sms_code] *)
Definition send_sms_code (args : SmsArgs) (ctx : Ctx) : M (ActionResult * Ctx) :=
  log ("Sending SMS to: " +:+ phone_number args);;
  let smsCode := "987654" in
  let ctx := variableStore_set "smsCode" smsCode ctx in
  mret ({| success := true; message := "SMS code sent to " +:+ phone_number args |}, ctx).

Definition check_user_status_schema : list SchemaField :=
  [ {| field := "user_id"; type := ZString; optional := false;
       describe := "User ID to check" |} ].

(** [execute] of [check_user_status] *)
Definition check_user_status (args : UserArgs) (ctx : Ctx) : M (ActionResult * Ctx) :=
  log ("Checking user status for: " +:+ user_id args);;
  let isVerified := true in
  let ctx := variableStore_set "userVerified" (show_bool isVerified) ctx in
  mret ({| success := true; message := "User verified: " +:+ show_bool isVerified |}, ctx).

(** [`  Variable '${name}' set: ${value ? `Yes (${value})` : 'No'}`] *)
Definition variable_set_line (name : string) (value : option string) : string :=
  "  Variable '" +:+ name +:+ "' set: " +:+
  (if truthy value then "Yes (" +:+ show_optional value +:+ ")" else "No").

Definition customActionsExample : M unit :=
  await (ChromiumLaunch false);;
  await BrowserNewContext;;
  await ContextNewPage;;
  await (CreateAgent {| model := "claude-haiku-4-5";
                        variables := [("testEmail", "user@example.com")];
                        sensitiveKeys := [];
                        testDataDir := None |});;
  await (AgentRegisterAction "get_email_verification_code"
           "Fetch the latest verification code from email inbox"
           get_email_verification_code_schema);;
  await (AgentRegisterAction "send_sms_code"
           "Send an SMS verification code to a phone number"
           send_sms_code_schema);;
  await (AgentRegisterAction "check_user_status"
           "Check if user is verified in the database"
           check_user_status_schema);;
  try_finally
    (log "=== Custom Actions Example ===";;
     log ("Model: claude-haiku-4-5" +:+ nl);;
     await (PageGoto "https://example.com");;
     log (nl +:+ "--- Test 1: Email Verification ---");;
     log ("Instruction: " +:+ quoted "Get the verification code for {{ testEmail }}");;
     await (AgentAct "Get the verification code for {{ testEmail }}");;
     verificationCode ← ask (AgentGetVariable "verificationCode");
     log (variable_set_line "verificationCode" verificationCode);;
     log (nl +:+ "--- Test 2: Database Check ---");;
     log ("Instruction: " +:+ quoted "Check if user abc123 is verified in the database");;
     await (AgentAct "Check if user abc123 is verified in the database");;
     userVerified ← ask (AgentGetVariable "userVerified");
     log (variable_set_line "userVerified" userVerified);;
     log (nl +:+ "--- Test 3: SMS Verification ---");;
     log ("Instruction: " +:+ quoted "Send an SMS verification code to +1234567890");;
     await (AgentAct "Send an SMS verification code to +1234567890");;
     smsCode ← ask (AgentGetVariable "smsCode");
     log (variable_set_line "smsCode" smsCode);;
     log (nl +:+ "--- Summary ---");;
     let actionsSucceeded :=
       length (filter (λ v, truthy v = true) [verificationCode; userVerified; smsCode]) in
     log ("Custom actions successfully executed: " +:+ show_nat actionsSucceeded +:+ "/3"))
    (await BrowserClose).

Definition customActions_ts : M unit :=
  load [".env"];;
  apiKey ← anthropic_api_key;
  await (ConfigureSdk {| logLevel := None; env := [("ANTHROPIC_API_KEY", apiKey)] |});;
  promise_catch customActionsExample (λ error, console_error [VError error]).

(** *** [variablesExample.ts] *)

Definition variablesExample : M unit :=
  await (ChromiumLaunch false);;
  await BrowserNewContext;;
  await ContextNewPage;;
  await (CreateAgent {| model := "claude-haiku-4-5";
                        variables := [("username", "standard_user");
                                      ("password", "secret_sauce")];
                        sensitiveKeys := ["password"];
                        testDataDir := None |});;
  try_finally
    (try_catch
       (log "=== Variables Example ===";;
        log ("Model: claude-haiku-4-5" +:+ nl);;
        log "1. Initial variables (set via createAgent):";;
        username ← ask (AgentGetVariable "username");
        log ("   username: " +:+ quoted (show_optional username));;
        password ← ask (AgentGetVariable "password");
        log ("   password: " +:+ quoted (show_optional password)
             +:+ " (sensitive - masked in logs)" +:+ nl);;
        log "2. Setting variables programmatically:";;
        await (AgentSetVariable "greeting" "Hello World" false);;
        await (AgentSetVariable "apiKey" "sk-secret-12345" true);;
        log "   agent.setVariable('greeting', 'Hello World')";;
        log "   agent.setVariable('apiKey', 'sk-secret-12345', true)";;
        greeting ← ask (AgentGetVariable "greeting");
        log ("   greeting: " +:+ quoted (show_optional greeting));;
        apiKey ← ask (AgentGetVariable "apiKey");
        log ("   apiKey: " +:+ quoted (show_optional apiKey) +:+ " (sensitive)" +:+ nl);;
        log "3. Using variables in instructions:";;
        await (PageGoto "https://www.saucedemo.com/");;
        log "   Syntax 1: $variableName";;
        log ("   Instruction: " +:+ quoted "Type $username in the username field");;
        await (AgentAct "Type $username in the username field");;
        agent_assert ("The username field contains " +:+ quoted "standard_user");;
        log ("   ✓ Used $username" +:+ nl);;
        log "   Syntax 2: {{ variableName }}";;
        log ("   Instruction: " +:+ quoted "Type {{ password }} in the password field");;
        await (AgentAct "Type {{ password }} in the password field");;
        log ("   ✓ Used {{ password }} (value masked in logs)" +:+ nl);;
        log "=== Variables Example Complete ===";;
        log (nl +:+ "Key points:");;
        log "  - Set initial variables: createAgent({ variables: {...} })";;
        log ("  - Mark sensitive: createAgent({ sensitiveKeys: [" +:+ quoted "password" +:+ "] })");;
        log "  - Set at runtime: agent.setVariable(name, value, sensitive?)";;
        log "  - Get value: agent.getVariable(name)";;
        log "  - Use in instructions: $variableName or {{ variableName }}")
       (λ error,
          console_error [VStr "Variables example failed:"; VError error];;
          throw error))
    (await (PageWaitForTimeout 3000);;
     await BrowserClose).

Definition variablesExample_ts : M unit :=
  load [".env"];;
  apiKey ← anthropic_api_key;
  await (ConfigureSdk {| logLevel := None; env := [("ANTHROPIC_API_KEY", apiKey)] |});;
  promise_catch variablesExample (λ error, console_error [VError error]).

End SdkExamples.

(** ** [examples/] *)

Module Examples.
Import JS Script.

(** *** [basicUsage.ts] *)

Definition basicExample : M unit :=
  await (ChromiumLaunch false);;
  await BrowserNewContext;;
  await ContextNewPage;;
  await (CreateAgent {| model := "gemini-2.5-pro";
                        variables := [("username", "testuser@example.com");
                                      ("password", "secret123")];
                        sensitiveKeys := ["password"];
                        testDataDir := None |});;
  try_finally
    (log "=== Basic Usage Example ===";;
     log ("Model: gemini-2.5-pro" +:+ nl);;
     await (PageGoto "https://example.com");;
     await (AgentAct ("Click on the " +:+ quoted "Learn More" +:+ " link"));;
     agent_assert "The page shows information about IANA";;
     hasHeader ← await (AgentEvaluate "Page has a header element");
     console_log [VStr "Has header:"; VBool hasHeader];;
     await (AgentAct "Scroll down to the bottom of the page");;
     await (AgentExtract "the page title" "pageTitle");;
     pageTitle ← ask (AgentGetVariable "pageTitle");
     console_log [VStr "Extracted page title:"; of_optional pageTitle];;
     log (nl +:+ "Testing failed assertion (should throw):");;
     try_catch
       (agent_assert "The page shows a shopping cart with items";;
        log "Assertion passed (unexpected)")
       (λ error,
          console_log [VStr ("Assertion failed as expected:" +:+ nl); VStr (message error)]))
    (await BrowserClose).

Definition basicUsage_ts : M unit :=
  load [".."; ".env"];;
  apiKey ← google_api_key "❌ Error: GOOGLE_API_KEY not set";
  await (ConfigureSdk {| logLevel := Some INFO; env := [("GOOGLE_API_KEY", apiKey)] |});;
  promise_catch basicExample (λ error, console_error [VError error]).

(** *** [selfHealingExample.ts] *)

(** [`   result.success: ${result.success}`] *)
Definition success_line (result : AgentStepResult) : string :=
  "   result.success: " +:+ show_bool (success result).

Definition selfHealingExample : M unit :=
  await (ChromiumLaunch false);;
  await BrowserNewContext;;
  await ContextNewPage;;
  await (CreateAgent (agent_config "gemini-2.5-pro"));;
  try_finally
    (try_catch
       (log "=== Self-Healing Example ===";;
        log ("Model: gemini-2.5-pro" +:+ nl);;
        log ("--- Part 1: Single-Step Self-Healing (maxSteps: 1) ---" +:+ nl);;
        await (PageGoto "https://www.wikipedia.org");;
        log ("1. Loaded Wikipedia homepage" +:+ nl);;
        log "2. Attempting to click search with wrong selector...";;
        log ("   Code: page.click(" +:+ quoted "#wrong-search-selector" +:+ ")");;
        log ("   Description: " +:+ quoted "Click the search input field");;
        result1 ← agent_step [Click "#wrong-search-selector" 2000]
                    "Click the search input field" 1;
        log (success_line result1);;
        (if success result1 then
           log ("   Agent successfully found and clicked the search input!" +:+ nl)
         else
           log ("   Self-healing failed: " +:+ show_optional (details result1) +:+ nl));;
        log ("--- Part 2: Multi-Step Self-Healing (maxSteps: 3) ---" +:+ nl);;
        await (PageGoto "https://www.saucedemo.com/");;
        log ("3. Loaded Sauce Demo login page" +:+ nl);;
        log "4. Attempting login with wrong selectors...";;
        log ("   Description: " +:+
             quoted "Enter username standard_user and password secret_sauce, then click login");;
        result2 ← agent_step [Fill "#wrong-username" "standard_user" 2000;
                              Fill "#wrong-password" "secret_sauce" 2000;
                              Click "#wrong-login-btn" 2000]
                    "Enter username standard_user and password secret_sauce, then click login" 3;
        log (success_line result2);;
        (if success result2 then
           log ("   Agent successfully completed the login!" +:+ nl)
         else
           log ("   Self-healing failed: " +:+ show_optional (details result2) +:+ nl));;
        log "5. Verifying login success...";;
        isLoggedIn ← await (AgentEvaluate "The inventory page is displayed with products");
        log ("   Logged in: " +:+ (if isLoggedIn : bool then "YES" else "NO") +:+ nl);;
        log ("--- Part 3: Disabled Self-Healing (maxSteps: 0) ---" +:+ nl);;
        log "6. Attempting action with self-healing disabled...";;
        log ("   With maxSteps: 0, returns failure immediately without agent recovery" +:+ nl);;
        result3 ← agent_step [Click "#non-existent-element" 2000] "Click a button" 0;
        log (success_line result3);;
        log ("   result.details: " +:+ show_optional (substring_opt 50 (details result3)) +:+ "...");;
        log ("   No agent recovery attempted (maxSteps: 0)" +:+ nl);;
        log ("--- Part 4: Negative Example (Self-Healing Fails) ---" +:+ nl);;
        await (PageGoto "https://www.wikipedia.org");;
        log ("7. Back to Wikipedia homepage" +:+ nl);;
        log "8. Attempting impossible action...";;
        log ("   Description: " +:+ quoted "Click the rocket launch button" +:+ " (does not exist)");;
        result4 ← agent_step [Click "#rocket-launch-button" 2000]
                    "Click the rocket launch button" 1;
        log (success_line result4);;
        (if negb (success result4) then
           log ("   result.details: " +:+ show_optional (substring_opt 80 (details result4)) +:+ "...");;
           log ("   Agent could not find the element (as expected)" +:+ nl)
         else mret tt);;
        log ("=== Self-Healing Summary ===" +:+ nl);;
        log "agent.step() returns AgentStepResult:";;
        log "  - success: true  -> original code or agent recovery succeeded";;
        log "  - success: false -> both original code and agent recovery failed";;
        log EmptyString;;
        log "maxSteps controls recovery behavior:";;
        log "  maxSteps: 0  - No self-healing, failure returned immediately";;
        log "  maxSteps: 1  - Single agent retry";;
        log "  maxSteps: >1 - Multi-step agent recovery";;
        log EmptyString;;
        log ("The " +:+ quoted "description" +:+ " parameter tells the agent what to accomplish");;
        log ("when the original code fails." +:+ nl))
       (λ error,
          console_error [VStr "Self-healing example failed:"; VError error];;
          throw error))
    (await (PageWaitForTimeout 3000);;
     await BrowserClose).

Definition selfHealingExample_ts : M unit :=
  load [".."; ".env"];;
  apiKey ← google_api_key "Error: GOOGLE_API_KEY not set";
  await (ConfigureSdk {| logLevel := None; env := [("GOOGLE_API_KEY", apiKey)] |});;
  promise_catch selfHealingExample (λ error, console_error [VError error]).

(** *** [variablesExample.ts] *)

Definition variablesExample : M unit :=
  await (ChromiumLaunch false);;
  await BrowserNewContext;;
  await ContextNewPage;;
  await (CreateAgent {| model := "gemini-2.5-pro";
                        variables := [("username", "standard_user");
                                      ("password", "secret_sauce")];
                        sensitiveKeys := ["password"];
                        testDataDir := None |});;
  try_finally
    (try_catch
       (log "=== Variables Example ===";;
        log ("Model: gemini-2.5-pro" +:+ nl);;
        log "1. Initial variables (set via createAgent):";;
        username ← ask (AgentGetVariable "username");
        log ("   username: " +:+ quoted (show_optional username));;
        password ← ask (AgentGetVariable "password");
        log ("   password: " +:+ quoted (show_optional password)
             +:+ " (sensitive - masked in logs)" +:+ nl);;
        log "2. Setting variables programmatically:";;
        await (AgentSetVariable "greeting" "Hello World" false);;
        await (AgentSetVariable "apiKey" "sk-secret-12345" true);;
        log "   agent.setVariable('greeting', 'Hello World')";;
        log "   agent.setVariable('apiKey', 'sk-secret-12345', true)";;
        greeting ← ask (AgentGetVariable "greeting");
        log ("   greeting: " +:+ quoted (show_optional greeting));;
        apiKey ← ask (AgentGetVariable "apiKey");
        log ("   apiKey: " +:+ quoted (show_optional apiKey) +:+ " (sensitive)" +:+ nl);;
        log "3. Using variables in instructions:";;
        await (PageGoto "https://www.saucedemo.com/");;
        log "   Syntax 1: $variableName";;
        log ("   Instruction: " +:+ quoted "Type $username in the username field");;
        await (AgentAct "Type $username in the username field");;
        agent_assert ("The username field contains " +:+ quoted "standard_user");;
        log ("   ✓ Used $username" +:+ nl);;
        log "   Syntax 2: {{ variableName }}";;
        log ("   Instruction: " +:+ quoted "Type {{ password }} in the password field");;
        await (AgentAct "Type {{ password }} in the password field");;
        log ("   ✓ Used {{ password }} (value masked in logs)" +:+ nl);;
        log "=== Variables Example Complete ===";;
        log (nl +:+ "Key points:");;
        log "  - Set initial variables: createAgent({ variables: {...} })";;
        log ("  - Mark sensitive: createAgent({ sensitiveKeys: [" +:+ quoted "password" +:+ "] })");;
        log "  - Set at runtime: agent.setVariable(name, value, sensitive?)";;
        log "  - Get value: agent.getVariable(name)";;
        log "  - Use in instructions: $variableName or {{ variableName }}")
       (λ error,
          console_error [VStr "Variables example failed:"; VError error];;
          throw error))
    (await (PageWaitForTimeout 3000);;
     await BrowserClose).

Definition variablesExample_ts : M unit :=
  load [".."; ".env"];;
  apiKey ← google_api_key "❌ Error: GOOGLE_API_KEY not set";
  await (ConfigureSdk {| logLevel := None; env := [("GOOGLE_API_KEY", apiKey)] |});;
  promise_catch variablesExample (λ error, console_error [VError error]).

(** *** [fileOperationsExample.ts] *)

Definition fileUploadExample : M unit :=
  dir ← __dirname;
  testDir ← path_resolve [dir; "test-files"];
  testFilePath ← path_resolve [testDir; "test-upload.txt"];
  exists_ ← ask (ExistsSync testDir);
  (if negb exists_ then await (MkdirSync testDir true) else mret tt);;
  await (WriteFileSync testFilePath
           ("This is a test file for upload demonstration." +:+ nl +:+
            "Created by Shiplight SDK example."));;
  log ("Created test file: " +:+ testFilePath +:+ nl);;
  await (ChromiumLaunch false);;
  await BrowserNewContext;;
  await ContextNewPage;;
  await (CreateAgent {| model := "gemini-2.5-pro";
                        variables := [];
                        sensitiveKeys := [];
                        testDataDir := Some testDir |});;
  try_finally
    (try_catch
       (log "=== File Upload Example ===";;
        log ("Model: gemini-2.5-pro" +:+ nl);;
        log "1. Navigating to upload test page...";;
        await (PageGoto "https://the-internet.herokuapp.com/upload");;
        log ("   ✓ Upload page loaded" +:+ nl);;
        log "2. Uploading file using agent...";;
        log ("   Instruction: " +:+ quoted "Upload the file test-upload.txt");;
        await (AgentAct "Upload the file test-upload.txt");;
        log ("   ✓ File selected" +:+ nl);;
        log "3. Submitting upload...";;
        await (AgentAct "Click the Upload button");;
        log ("   ✓ Upload submitted" +:+ nl);;
        log "4. Verifying upload success...";;
        agent_assert ("The page shows " +:+ quoted "File Uploaded!" +:+ " message");;
        log ("   ✓ Upload verified" +:+ nl);;
        await (AgentExtract "the uploaded filename shown on the page" "uploadedFile");;
        uploadedFile ← ask (AgentGetVariable "uploadedFile");
        log ("   Uploaded file: " +:+ show_optional uploadedFile +:+ nl);;
        log "=== File Upload Example Complete ===";;
        log (nl +:+ "Key points:");;
        log "  • Set testDataDir in createAgent() to specify where files are located";;
        log ("  • Use agent.act() with natural language: " +:+ quoted "Upload the file <filename>");;
        log "  • The agent automatically finds file inputs and handles the upload")
       (λ error,
          console_error [VStr "File upload example failed:"; VError error];;
          throw error))
    (await (PageWaitForTimeout 3000);;
     await BrowserClose).

Definition fileOperationsExample_ts : M unit :=
  load [".."; ".env"];;
  apiKey ← google_api_key "❌ Error: GOOGLE_API_KEY not set";
  await (ConfigureSdk {| logLevel := None; env := [("GOOGLE_API_KEY", apiKey)] |});;
  promise_catch fileUploadExample (λ error, console_error [VError error]).

(** *** [extractionExample.ts] *)

(** [await agent.extract(page, description, name);
     console.log(`${label}: "${agent.getVariable(name)}"\n`);] *)
Definition extract_and_show (description name label : string) : M unit :=
  await (AgentExtract description name);;
  value ← ask (AgentGetVariable name);
  log (label +:+ ": " +:+ quoted (show_optional value) +:+ nl).

(** The same, printing at most the first [n] characters and an ellipsis:
    [`${label}: "${agent.getVariable(name)?.substring(0, n)}..."\n`] *)
Definition extract_and_show_start (description name label : string) (n : nat) : M unit :=
  await (AgentExtract description name);;
  value ← ask (AgentGetVariable name);
  log (label +:+ ": " +:+ dq +:+ show_optional (substring_opt n value) +:+ "..." +:+ dq +:+ nl).

Definition extractedVars : list string :=
  ["pageTitle"; "mainHeading"; "articleTitle"; "articleSummary";
   "tocItems"; "productName"; "productPrice"; "productDescription"; "productCount"].

(** The body of [extractedVars.forEach(name => { ... })] *)
Definition show_extracted (name : string) : M unit :=
  value ← ask (AgentGetVariable name);
  match value with
  | Some (String c v) =>
      let value := String c v in
      let displayValue :=
        if (60 <? String.length value)%nat
        then String.substring 0 60 value +:+ "..."
        else value in
      log ("  " +:+ name +:+ ": " +:+ quoted displayValue)
  | _ => mret tt
  end.

Definition extractionExample : M unit :=
  await (ChromiumLaunch false);;
  await BrowserNewContext;;
  await ContextNewPage;;
  await (CreateAgent (agent_config "claude-haiku-4-5"));;
  try_finally
    (try_catch
       (log "=== Data Extraction Example ===";;
        log ("Model: claude-haiku-4-5" +:+ nl);;
        log ("--- Part 1: Basic Text Extraction ---" +:+ nl);;
        await (PageGoto "https://example.com/");;
        log ("1. Navigated to example.com" +:+ nl);;
        log "2. Extracting page title...";;
        extract_and_show "the page title" "pageTitle" "   pageTitle";;
        log "3. Extracting main heading...";;
        extract_and_show "the main heading text" "mainHeading" "   mainHeading";;
        log "4. Extracting paragraph content...";;
        extract_and_show_start "the first paragraph text" "firstParagraph" "   firstParagraph" 100;;
        log ("--- Part 2: Extracting from Wikipedia ---" +:+ nl);;
        await (PageGoto "https://en.wikipedia.org/wiki/Web_browser");;
        log ("5. Navigated to Wikipedia article" +:+ nl);;
        log "6. Extracting article title...";;
        extract_and_show "the article title" "articleTitle" "   articleTitle";;
        log "7. Extracting article summary...";;
        extract_and_show_start "the first sentence of the article" "articleSummary"
          "   articleSummary" 150;;
        log "8. Extracting table of contents...";;
        extract_and_show "the first 3 items from the table of contents" "tocItems" "   tocItems";;
        log ("--- Part 3: Extracting from E-commerce (Sauce Labs Demo) ---" +:+ nl);;
        await (PageGoto "https://www.saucedemo.com/");;
        await (PageFill "#user-name" "standard_user");;
        await (PageFill "#password" "secret_sauce");;
        await (PageClick "#login-button");;
        await (PageWaitForLoadState "networkidle");;
        log ("9. Logged in to Sauce Labs Demo" +:+ nl);;
        log "10. Extracting first product name...";;
        extract_and_show "the name of the first product" "productName" "    productName";;
        log "11. Extracting first product price...";;
        extract_and_show "the price of the first product" "productPrice" "    productPrice";;
        log "12. Extracting first product description...";;
        extract_and_show_start "the description of the first product" "productDescription"
          "    productDescription" 100;;
        log "13. Extracting total product count...";;
        extract_and_show "the total number of products displayed" "productCount"
          "    productCount";;
        log ("--- Part 4: Using Extracted Data in Actions ---" +:+ nl);;
        log "14. Using extracted product name in search...";;
        productName ← ask (AgentGetVariable "productName");
        log ("    Will search for: " +:+ quoted (show_optional productName));;
        await (PageGoto "https://www.wikipedia.org/");;
        await (AgentAct "Type $productName in the search box");;
        log ("    ✓ Typed extracted product name into Wikipedia search" +:+ nl);;
        log ("--- Part 5: Conditional Extraction ---" +:+ nl);;
        await (PageGoto "https://www.saucedemo.com/inventory.html");;
        log ("15. Back on inventory page" +:+ nl);;
        log "16. Checking for sale items...";;
        hasSaleItems ← await (AgentEvaluate "There are items marked as on sale or discounted");
        log ("    Sale items present: " +:+ (if hasSaleItems : bool then "✓" else "✗"));;
        (if hasSaleItems : bool then
           extract_and_show "the names of items on sale" "saleItems" "    saleItems"
         else
           log ("    Skipping sale item extraction (none found)" +:+ nl));;
        log ("=== Extraction Summary ===" +:+ nl);;
        log "Extracted values:";;
        for_each extractedVars show_extracted;;
        log (nl +:+ "✓ Data extraction example completed"))
       (λ error,
          console_error [VStr "Extraction example failed:"; VError error];;
          throw error))
    (await (PageWaitForTimeout 3000);;
     await BrowserClose).

Definition extractionExample_ts : M unit :=
  load [".."; ".env"];;
  apiKey ← anthropic_api_key;
  await (ConfigureSdk {| logLevel := None; env := [("ANTHROPIC_API_KEY", apiKey)] |});;
  promise_catch extractionExample (λ error, console_error [VError error]).

(** *** [loginExample.ts] *)

Definition loginExample : M unit :=
  await (ChromiumLaunch false);;
  await BrowserNewContext;;
  await ContextNewPage;;
  await (CreateAgent (agent_config "gemini-2.5-pro"));;
  try_finally
    (try_catch
       (log ("=== Login Example ===" +:+ nl);;
        log "1. Performing smart login...";;
        success ← await (AgentLogin {| url := "https://www.saucedemo.com/";
                                       username := "standard_user";
                                       password := "secret_sauce" |});
        (if negb success then throw {| message := "Login failed" |} else mret tt : M unit);;
        log ("   Login successful!" +:+ nl);;
        log "2. Verifying login...";;
        agent_assert "The inventory page is displayed with products";;
        log ("   Inventory page verified!" +:+ nl);;
        log "3. Extracting data from authenticated page...";;
        await (AgentExtract "the first product name" "firstProduct");;
        firstProduct ← ask (AgentGetVariable "firstProduct");
        log ("   First product: " +:+ show_optional firstProduct +:+ nl);;
        log "=== Login Example Complete ===";;
        log (nl +:+ "Key points:");;
        log "  - agent.login() handles the entire login flow";;
        log "  - Automatically finds username/password fields";;
        log "  - Supports 2FA with totpSecret option")
       (λ error,
          console_error [VStr "Login example failed:"; VError error];;
          throw error))
    (await (PageWaitForTimeout 3000);;
     await BrowserClose).

Definition loginExample_ts : M unit :=
  load [".."; ".env"];;
  apiKey ← google_api_key "❌ Error: GOOGLE_API_KEY not set";
  await (ConfigureSdk {| logLevel := None; env := [("GOOGLE_API_KEY", apiKey)] |});;
  promise_catch loginExample (λ error, console_error [VError error]).

End Examples.

(** ** Worlds to run the scripts in *)

Module Worlds.
Import JS.

(** How a world answers: the environment variables, the agent's verdicts,
    step results and variables, and the cart page. *)
Record Behaviour := {
  getenv : string → option string;
  verdict : string → option string;
  step : string → AgentStepResult;
  judged : string → bool;
  login : bool;
  stored : string → option string;
  badge_visible : bool;
  badge_text : option string;
  buttons : nat
}.

(** Every call that can throw succeeds. *)
Definition answer (b : Behaviour) {A : Type} (c : call A) : A :=
  match c in call T return T with
  | DotenvConfig _ => tt
  | Import _ => Ok tt
  | GetEnv name => getenv b name
  | ConsoleLog _ => tt
  | ConsoleError _ => tt
  | ProcessExit _ => tt
  | ExistsSync _ => false
  | MkdirSync _ _ => Ok tt
  | WriteFileSync _ _ => Ok tt
  | ChromiumLaunch _ => Ok tt
  | BrowserNewContext => Ok tt
  | ContextNewPage => Ok tt
  | BrowserNewPage => Ok tt
  | BrowserClose => Ok tt
  | PageGoto _ => Ok tt
  | PageFill _ _ => Ok tt
  | PageClick _ => Ok tt
  | PageWaitForLoadState _ => Ok tt
  | PageWaitForTimeout _ => Ok tt
  | LocatorIsVisible _ => Ok (badge_visible b)
  | LocatorTextContent _ => Ok (badge_text b)
  | LocatorCount _ => Ok (buttons b)
  | LocatorNthClick _ _ => Ok tt
  | ConfigureSdk _ => Ok tt
  | CreateAgent _ => Ok tt
  | AgentAct _ => Ok tt
  | AgentAssert instruction => verdict b instruction
  | AgentEvaluate instruction => Ok (judged b instruction)
  | AgentExtract _ _ => Ok tt
  | AgentLogin _ => Ok (login b)
  | AgentStep _ description _ => step b description
  | AgentRegisterAction _ _ _ => Ok tt
  | AgentGetVariable name => stored b name
  | AgentSetVariable _ _ _ => Ok tt
  end.

Definition make (b : Behaviour) : World :=
  {| respond := λ A _ c, answer b c;
     import_meta_url := "file:///repo/examples/script.ts";
     fileURLToPath := λ _, "/repo/examples/script.ts";
     dirname := λ _, "/repo/examples";
     resolve := String.concat "/" |}.

(** Nothing set, every assertion holds, every step succeeds. *)
Definition quiet : Behaviour :=
  {| getenv := λ _, None;
     verdict := λ _, None;
     step := λ _, {| success := true; details := None |};
     judged := λ _, true;
     login := true;
     stored := λ _, None;
     badge_visible := false;
     badge_text := None;
     buttons := 0 |}.

(** Only the fallback [GOOGLE_GENERATIVE_AI_API_KEY] is set. *)
Definition fallback_key_only : Behaviour :=
  {| getenv := λ name,
       if String.eqb name "GOOGLE_GENERATIVE_AI_API_KEY" then Some "AIza-demo" else None;
     verdict := verdict quiet; step := step quiet; judged := judged quiet; login := true;
     stored := stored quiet; badge_visible := false; badge_text := None; buttons := 0 |}.



(** A cart page with a badge and some "Remove" buttons. *)
Definition cart (text : option string) (n : nat) : Behaviour :=
  {| getenv := getenv quiet; verdict := verdict quiet; step := step quiet;
     judged := judged quiet; login := true; stored := stored quiet;
     badge_visible := true; badge_text := text; buttons := n |}.

(** The key variables are set, to the empty string. *)
Definition empty_keys : Behaviour :=
  {| getenv := λ _, Some EmptyString;
     verdict := verdict quiet; step := step quiet; judged := judged quiet;
     login := true; stored := stored quiet;
     badge_visible := false; badge_text := None; buttons := 0 |}.

(** No asserted condition holds. *)
Definition nothing_holds : Behaviour :=
  {| getenv := λ _, Some "key";
     verdict := λ _, Some "The condition does not hold";
     step := step quiet; judged := judged quiet; login := true;
     stored := stored quiet; badge_visible := false; badge_text := None; buttons := 0 |}.

(** The login does not go through. *)
Definition login_refused : Behaviour :=
  {| getenv := λ _, Some "key";
     verdict := verdict quiet; step := step quiet; judged := judged quiet;
     login := false; stored := stored quiet;
     badge_visible := false; badge_text := None; buttons := 0 |}.

End Worlds.

(** ** The example scripts, with the variables their guards read *)

Definition example_scripts : list (list string * JS.M unit) :=
  [ (["ANTHROPIC_API_KEY"], SdkExamples.quickStart_ts);
    (["ANTHROPIC_API_KEY"], SdkExamples.customActions_ts);
    (["ANTHROPIC_API_KEY"], SdkExamples.variablesExample_ts);
    (["ANTHROPIC_API_KEY"], Examples.extractionExample_ts);
    (["GOOGLE_API_KEY"; "GOOGLE_GENERATIVE_AI_API_KEY"], Examples.basicUsage_ts);
    (["GOOGLE_API_KEY"; "GOOGLE_GENERATIVE_AI_API_KEY"], Examples.selfHealingExample_ts);
    (["GOOGLE_API_KEY"; "GOOGLE_GENERATIVE_AI_API_KEY"], Examples.variablesExample_ts);
    (["GOOGLE_API_KEY"; "GOOGLE_GENERATIVE_AI_API_KEY"], Examples.fileOperationsExample_ts);
    (["GOOGLE_API_KEY"; "GOOGLE_GENERATIVE_AI_API_KEY"], Examples.loginExample_ts) ].

(** The answer to a call that can throw is not an error. *)
Definition is_ok {A : Type} (r : JS.result A) : Prop := ∃ a, r = JS.Ok a.

Definition succeeded {A : Type} (c : JS.call A) : A → Prop :=
  match c in JS.call T return T → Prop with
  | JS.Import _ => is_ok
  | JS.MkdirSync _ _ => is_ok
  | JS.WriteFileSync _ _ => is_ok
  | JS.ChromiumLaunch _ => is_ok
  | JS.BrowserNewContext => is_ok
  | JS.ContextNewPage => is_ok
  | JS.BrowserNewPage => is_ok
  | JS.BrowserClose => is_ok
  | JS.PageGoto _ => is_ok
  | JS.PageFill _ _ => is_ok
  | JS.PageClick _ => is_ok
  | JS.PageWaitForLoadState _ => is_ok
  | JS.PageWaitForTimeout _ => is_ok
  | JS.LocatorIsVisible _ => is_ok
  | JS.LocatorTextContent _ => is_ok
  | JS.LocatorCount _ => is_ok
  | JS.LocatorNthClick _ _ => is_ok
  | JS.ConfigureSdk _ => is_ok
  | JS.CreateAgent _ => is_ok
  | JS.AgentAct _ => is_ok
  | JS.AgentEvaluate _ => is_ok
  | JS.AgentExtract _ _ => is_ok
  | JS.AgentLogin _ => is_ok
  | JS.AgentRegisterAction _ _ _ => is_ok
  | JS.AgentSetVariable _ _ _ => is_ok
  | _ => λ _, True
  end.

(** A world in which every call that can throw succeeds. *)
Definition succeeds (w : JS.World) : Prop :=
  ∀ (A : Type) (tr : list JS.event) (c : JS.call A),
    succeeded c (JS.respond w A tr c).

(** A world in which the dynamic imports succeed. *)
Definition imports_succeed (w : JS.World) : Prop :=
  ∀ (tr : list JS.event) (specifier : string),
    JS.respond w _ tr (JS.Import specifier) = JS.Ok tt.

(** A world in which the environment variable is not set. *)
Definition unset (w : JS.World) (name : string) : Prop :=
  ∀ tr : list JS.event, JS.respond w _ tr (JS.GetEnv name) = None.

(** The script ends in [process.exit(1)], right after a [console.error]
    and a [console.log], and before any use of the SDK. *)
Definition exits_before_sdk (script : JS.M unit) (w : JS.World) : Prop :=
  ∃ (tr : list JS.event) (error hint : list JS.jsval),
    script w [] = (JS.Exit 1%Z,
                   tr ++ [JS.Ev (JS.ConsoleError error); JS.Ev (JS.ConsoleLog hint);
                          JS.Ev (JS.ProcessExit 1)])
    ∧ error ≠ [] ∧ hint ≠ []
    ∧ forallb (λ e, negb (JS.uses_sdk e)) tr = true.

(** The stronger reading: the script exits as soon as the one variable its
    messages name is unset. *)
Definition exits_when_unset (name : string) (script : JS.M unit) : Prop :=
  ∀ w : JS.World, imports_succeed w → unset w name → exits_before_sdk script w.



(** The indices of the buttons clicked through [nth(i).click()], in order. *)
Definition clicks (tr : list JS.event) : list (string * nat) :=
  omap (λ e, match e with
             | JS.Ev (JS.LocatorNthClick selector i) => Some (selector, i)
             | _ => None
             end) tr.

(** The handler logs, stores [value] under [name] in [ctx.variableStore]
    and returns [success: true] with a message that is not empty. *)
Definition stores_and_succeeds
    (handler : SdkExamples.Ctx → JS.M (SdkExamples.ActionResult * SdkExamples.Ctx))
    (name value : string) : Prop :=
  ∀ (ctx : SdkExamples.Ctx) (w : JS.World) (tr : list JS.event),
    ∃ (result : SdkExamples.ActionResult) (ctx' : SdkExamples.Ctx) (line : string),
      handler ctx w tr = (JS.Ret (result, ctx'), tr ++ [JS.Ev (JS.ConsoleLog [JS.VStr line])])
      ∧ SdkExamples.success result = true
      ∧ SdkExamples.message result ≠ EmptyString
      ∧ SdkExamples.variableStore ctx'
        = VariableStore.exec (VariableStore.set name value false) (SdkExamples.variableStore ctx)
      ∧ VariableStore.eval (VariableStore.get name) (SdkExamples.variableStore ctx')
        = Some value.

(** A world in which the environment variable is unset or empty. *)
Definition unset_or_empty (w : JS.World) (name : string) : Prop :=
  ∀ tr : list JS.event, JS.truthy (JS.respond w _ tr (JS.GetEnv name)) = false.

(** What the script asked the agent to extract, in order. *)
Definition extracted (tr : list JS.event) : list (string * string) :=
  omap (λ e, match e with
             | JS.Ev (JS.AgentExtract description name) => Some (description, name)
             | _ => None
             end) tr.

(** What the script asked the agent to assert, in order. *)
Definition asserted (tr : list JS.event) : list string :=
  omap (λ e, match e with
             | JS.Ev (JS.AgentAssert instruction) => Some instruction
             | _ => None
             end) tr.

(** The buttons [nth(i).click()] reaches for the indices given, on a page
    that holds [buttons]: a click takes the button off the page (as
    "Remove" does on the cart page of the demo site) when [removes], and
    leaves the page as it is otherwise. *)
Fixpoint buttons_clicked {B : Type} (removes : bool) (buttons : list B) (indices : list nat)
  : list (option B) :=
  match indices with
  | [] => []
  | i :: rest =>
      buttons !! i
      :: buttons_clicked removes (if removes then delete i buttons else buttons) rest
  end.

(** ** Kinds of calls *)

(** [chromium.launch(...)] *)
Definition launches_browser (e : JS.event) : bool :=
  match e with
  | JS.Ev (JS.ChromiumLaunch _) => true
  | _ => false
  end.

(** [browser.close()] *)
Definition closes_browser (e : JS.event) : bool :=
  match e with
  | JS.Ev JS.BrowserClose => true
  | _ => false
  end.

(** Neither [chromium.launch] nor [browser.close]. *)
Definition keeps_browser (e : JS.event) : bool :=
  negb (launches_browser e) && negb (closes_browser e).


(** [mkdirSync(...)] *)
Definition makes_directory (e : JS.event) : bool :=
  match e with
  | JS.Ev (JS.MkdirSync _ _) => true
  | _ => false
  end.

(** [writeFileSync(...)] *)
Definition writes_file (e : JS.event) : bool :=
  match e with
  | JS.Ev (JS.WriteFileSync _ _) => true
  | _ => false
  end.

(** What a main function does before its [try] block: it writes the test
    file, launches the browser, opens a page, creates the agent and
    registers the custom actions. *)
Definition prepares (e : JS.event) : bool :=
  match e with
  | JS.Ev (JS.MkdirSync _ _) | JS.Ev (JS.WriteFileSync _ _)
  | JS.Ev (JS.ChromiumLaunch _) | JS.Ev JS.BrowserNewContext | JS.Ev JS.ContextNewPage
  | JS.Ev JS.BrowserNewPage | JS.Ev (JS.CreateAgent _)
  | JS.Ev (JS.AgentRegisterAction _ _ _) => true
  | _ => false
  end.

(** [page.waitForTimeout(ms)] *)
Definition waits (e : JS.event) : bool :=
  match e with
  | JS.Ev (JS.PageWaitForTimeout _) => true
  | _ => false
  end.


(** [locator.nth(i).click()] *)
Definition clicks_button (i : nat) (e : JS.event) : bool :=
  match e with
  | JS.Ev (JS.LocatorNthClick _ j) => Nat.eqb i j
  | _ => false
  end.


(** [configureSdk(...)] *)
Definition configures (e : JS.event) : bool :=
  match e with
  | JS.Ev (JS.ConfigureSdk _) => true
  | _ => false
  end.

(** What only the top level of a script does: load [.env], import, read
    the environment, configure the SDK, end the process. *)
Definition top_level (e : JS.event) : bool :=
  match e with
  | JS.Ev (JS.DotenvConfig _) | JS.Ev (JS.Import _) | JS.Ev (JS.GetEnv _)
  | JS.Ev (JS.ConfigureSdk _) | JS.Ev (JS.ProcessExit _) => true
  | _ => false
  end.


(** [console.error(...)] *)
Definition logs_error (e : JS.event) : bool :=
  match e with
  | JS.Ev (JS.ConsoleError _) => true
  | _ => false
  end.

(** How many calls of one kind a trace holds. *)
Definition calls (kind : JS.event → bool) (tr : list JS.event) : nat :=
  length (List.filter kind tr).

(** ** Worlds in which calls of some kind succeed, or throw *)

(** A world in which the calls of one kind do not throw. *)
Definition succeeds_on (kind : JS.event → bool) (w : JS.World) : Prop :=
  ∀ (A : Type) (tr : list JS.event) (c : JS.call A),
    kind (JS.Ev c) = true → succeeded c (JS.respond w A tr c).

(** The error in the answer of a call, if it threw. *)
Definition error_in {A : Type} (r : JS.result A) : option JS.Error :=
  match r with
  | JS.Ok _ => None
  | JS.Err e => Some e
  end.

Definition error_of {A : Type} (c : JS.call A) : A → option JS.Error :=
  match c in JS.call T return T → option JS.Error with
  | JS.Import _ => error_in
  | JS.MkdirSync _ _ => error_in
  | JS.WriteFileSync _ _ => error_in
  | JS.ChromiumLaunch _ => error_in
  | JS.BrowserNewContext => error_in
  | JS.ContextNewPage => error_in
  | JS.BrowserNewPage => error_in
  | JS.BrowserClose => error_in
  | JS.PageGoto _ => error_in
  | JS.PageFill _ _ => error_in
  | JS.PageClick _ => error_in
  | JS.PageWaitForLoadState _ => error_in
  | JS.PageWaitForTimeout _ => error_in
  | JS.LocatorIsVisible _ => error_in
  | JS.LocatorTextContent _ => error_in
  | JS.LocatorCount _ => error_in
  | JS.LocatorNthClick _ _ => error_in
  | JS.ConfigureSdk _ => error_in
  | JS.CreateAgent _ => error_in
  | JS.AgentAct _ => error_in
  | JS.AgentEvaluate _ => error_in
  | JS.AgentExtract _ _ => error_in
  | JS.AgentLogin _ => error_in
  | JS.AgentRegisterAction _ _ _ => error_in
  | JS.AgentSetVariable _ _ _ => error_in
  | _ => λ _, None
  end.

(** A world in which every call of one kind throws [e]. *)
Definition fails_on (kind : JS.event → bool) (e : JS.Error) (w : JS.World) : Prop :=
  ∀ (A : Type) (tr : list JS.event) (c : JS.call A),
    kind (JS.Ev c) = true → error_of c (JS.respond w A tr c) = Some e.

(** A world whose environment variables are [env]. *)
Definition reads_env (w : JS.World) (env : string → option string) : Prop :=
  ∀ (tr : list JS.event) (name : string), JS.respond w _ tr (JS.GetEnv name) = env name.

(** [process.env.A || process.env.B || ...]: the first value that is
    truthy, the last value when none is. *)
Fixpoint or_else (env : string → option string) (keys : list string) : option string :=
  match keys with
  | [] => None
  | [key] => env key
  | key :: rest => if JS.truthy (env key) then env key else or_else env rest
  end.

Module FailingWorlds.
Import JS.

(** The answer of a call that throws [e], for the calls that can throw. *)
Definition thrown (e : Error) {A : Type} (c : call A) : A → A :=
  match c in call T return T → T with
  | Import _ => λ _, Err e
  | MkdirSync _ _ => λ _, Err e
  | WriteFileSync _ _ => λ _, Err e
  | ChromiumLaunch _ => λ _, Err e
  | BrowserNewContext => λ _, Err e
  | ContextNewPage => λ _, Err e
  | BrowserNewPage => λ _, Err e
  | BrowserClose => λ _, Err e
  | PageGoto _ => λ _, Err e
  | PageFill _ _ => λ _, Err e
  | PageClick _ => λ _, Err e
  | PageWaitForLoadState _ => λ _, Err e
  | PageWaitForTimeout _ => λ _, Err e
  | LocatorIsVisible _ => λ _, Err e
  | LocatorTextContent _ => λ _, Err e
  | LocatorCount _ => λ _, Err e
  | LocatorNthClick _ _ => λ _, Err e
  | ConfigureSdk _ => λ _, Err e
  | CreateAgent _ => λ _, Err e
  | AgentAct _ => λ _, Err e
  | AgentEvaluate _ => λ _, Err e
  | AgentExtract _ _ => λ _, Err e
  | AgentLogin _ => λ _, Err e
  | AgentRegisterAction _ _ _ => λ _, Err e
  | AgentSetVariable _ _ _ => λ _, Err e
  | _ => λ a, a
  end.

(** The world of [Worlds.make], but the calls of the kind [fails] throw
    [e]. *)
Definition make (fails : event → bool) (e : Error) (b : Worlds.Behaviour) : World :=
  {| respond := λ A _ c,
       if fails (Ev c) then thrown e c (Worlds.answer b c) else Worlds.answer b c;
     import_meta_url := import_meta_url (Worlds.make b);
     fileURLToPath := fileURLToPath (Worlds.make b);
     dirname := dirname (Worlds.make b);
     resolve := resolve (Worlds.make b) |}.

Definition timeout : Error := {| message := "Timeout 30000ms exceeded." |}.
Definition disk_full : Error := {| message := "ENOSPC: no space left on device" |}.

End FailingWorlds.

(** ** More worlds that let every call succeed *)

Module MoreWorlds.


(** Both Gemini variables are set. *)
Definition both_keys : Worlds.Behaviour :=
  {| Worlds.getenv := λ name,
       if String.eqb name "GOOGLE_API_KEY" then Some "first"
       else if String.eqb name "GOOGLE_GENERATIVE_AI_API_KEY" then Some "second"
       else None;
     Worlds.verdict := Worlds.verdict Worlds.quiet;
     Worlds.step := Worlds.step Worlds.quiet;
     Worlds.judged := Worlds.judged Worlds.quiet;
     Worlds.login := true;
     Worlds.stored := Worlds.stored Worlds.quiet;
     Worlds.badge_visible := false; Worlds.badge_text := None; Worlds.buttons := 0 |}.

(** [agent.getVariable('password')] answers with the password. *)
Definition password_stored : Worlds.Behaviour :=
  {| Worlds.getenv := Worlds.getenv Worlds.quiet;
     Worlds.verdict := Worlds.verdict Worlds.quiet;
     Worlds.step := Worlds.step Worlds.quiet;
     Worlds.judged := Worlds.judged Worlds.quiet;
     Worlds.login := true;
     Worlds.stored := λ name,
       if String.eqb name "password" then Some "secret_sauce" else None;
     Worlds.badge_visible := false; Worlds.badge_text := None; Worlds.buttons := 0 |}.

End MoreWorlds.

(** ** The main functions *)

(** The main functions of the scripts, the ones whose promise the script
    ends with [.catch(console.error)]. *)
Definition main_functions : list (JS.M unit) :=
  [ SdkExamples.quickStart; SdkExamples.customActionsExample; SdkExamples.variablesExample;
    Examples.basicExample; Examples.selfHealingExample; Examples.variablesExample;
    Examples.fileUploadExample; Examples.extractionExample; Examples.loginExample ].

(** The main functions whose [finally] block waits before it closes the
    browser. *)
Definition waiting_main_functions : list (JS.M unit) :=
  [ SdkExamples.quickStart; SdkExamples.variablesExample;
    Examples.selfHealingExample; Examples.variablesExample;
    Examples.fileUploadExample; Examples.extractionExample; Examples.loginExample ].

(** The two variables examples, the one for Claude and the one for Gemini. *)
Definition variables_examples : list (JS.M unit) :=
  [ SdkExamples.variablesExample; Examples.variablesExample ].

(** The scripts, each with the place of the [.env] file it loads,
    relative to its own directory. *)
Definition dotenv_files : list (list string * JS.M unit) :=
  [ ([".env"], SdkExamples.quickStart_ts);
    ([".env"], SdkExamples.customActions_ts);
    ([".env"], SdkExamples.variablesExample_ts);
    ([".."; ".env"], Examples.extractionExample_ts);
    ([".."; ".env"], Examples.basicUsage_ts);
    ([".."; ".env"], Examples.selfHealingExample_ts);
    ([".."; ".env"], Examples.variablesExample_ts);
    ([".."; ".env"], Examples.fileOperationsExample_ts);
    ([".."; ".env"], Examples.loginExample_ts) ].

(** The main functions, each with the words its [catch] block puts before
    the error on [console.error]; [basicExample] and [customActionsExample]
    have no [catch] block. *)
Definition catch_blocks : list (JS.M unit * option string) :=
  [ (SdkExamples.quickStart, Some "Quick start failed:");
    (SdkExamples.customActionsExample, None);
    (SdkExamples.variablesExample, Some "Variables example failed:");
    (Examples.basicExample, None);
    (Examples.selfHealingExample, Some "Self-healing example failed:");
    (Examples.variablesExample, Some "Variables example failed:");
    (Examples.fileUploadExample, Some "File upload example failed:");
    (Examples.extractionExample, Some "Extraction example failed:");
    (Examples.loginExample, Some "Login example failed:") ].

(** ** What a computation does in every world *)

(** A computation that, in every world and whatever the answers, only
    makes calls of the kind [allowed] and does not end the process. *)
Definition confined {A : Type} (allowed : JS.event → bool) (m : JS.M A) : Prop :=
  ∀ (w : JS.World) (tr : list JS.event),
    (∀ code, fst (m w tr) ≠ JS.Exit code)
    ∧ ∃ tr', snd (m w tr) = tr ++ tr' ∧ forallb allowed tr' = true.

(** A computation that only adds to the trace. *)
Definition extends {A : Type} (m : JS.M A) : Prop :=
  ∀ (w : JS.World) (tr : list JS.event), ∃ tr', snd (m w tr) = tr ++ tr'.

(** A computation that, in the world [w], returns whatever the trace so
    far, and logs nothing on [console.error]. *)
Definition runs_quietly {A : Type} (w : JS.World) (m : JS.M A) : Prop :=
  ∀ tr : list JS.event,
    ∃ (a : A) (tr' : list JS.event),
      m w tr = (JS.Ret a, tr ++ tr') ∧ JS.errors_logged tr' = [].

(** The answers the world gave to the [agent.getVariable] calls of a
    trace, with the names asked for, in order; [before] is what happened
    before the trace. *)
Fixpoint variables_read_from (w : JS.World) (before tr : list JS.event)
  : list (string * option string) :=
  match tr with
  | [] => []
  | e :: rest =>
      match e with
      | JS.Ev (JS.AgentGetVariable name) =>
          [(name, JS.respond w _ before (JS.AgentGetVariable name))]
      | _ => []
      end ++ variables_read_from w (before ++ [e]) rest
  end.

Definition variables_read (w : JS.World) (tr : list JS.event) : list (string * option string) :=
  variables_read_from w [] tr.

(** ** The custom actions, one after the other *)

(** The three custom actions of [customActions.ts], with their arguments. *)
Inductive CustomAction :=
| GetEmailVerificationCode (args : SdkExamples.EmailArgs)
| SendSmsCode (args : SdkExamples.SmsArgs)
| CheckUserStatus (args : SdkExamples.UserArgs).

(** [action.execute(args, ctx)] *)
Definition execute (action : CustomAction) (ctx : SdkExamples.Ctx)
  : JS.M (SdkExamples.ActionResult * SdkExamples.Ctx) :=
  match action with
  | GetEmailVerificationCode args => SdkExamples.get_email_verification_code args ctx
  | SendSmsCode args => SdkExamples.send_sms_code args ctx
  | CheckUserStatus args => SdkExamples.check_user_status args ctx
  end.

(** Some actions run one after the other on the same [ctx]: each sees the
    store as the one before left it. *)
Fixpoint execute_all (actions : list CustomAction) (ctx : SdkExamples.Ctx)
  : JS.M SdkExamples.Ctx :=
  match actions with
  | [] => mret ctx
  | action :: rest => r ← execute action ctx; execute_all rest r.2
  end.

(** The variable an action sets, and the value it sets it to. *)
Definition sets (action : CustomAction) : string * string :=
  match action with
  | GetEmailVerificationCode _ => ("verificationCode", "123456")
  | SendSmsCode _ => ("smsCode", "987654")
  | CheckUserStatus _ => ("userVerified", "true")
  end.

(** What an action logs when it runs. *)
Definition announces (action : CustomAction) : string :=
  match action with
  | GetEmailVerificationCode args => "Checking email for: " +:+ SdkExamples.email_address args
  | SendSmsCode args => "Sending SMS to: " +:+ SdkExamples.phone_number args
  | CheckUserStatus args => "Checking user status for: " +:+ SdkExamples.user_id args
  end.

(** The store after an action has set its variable. *)
Definition store_after (action : CustomAction) (variables : VariableStore.t)
  : VariableStore.t :=
  VariableStore.exec (VariableStore.set (sets action).1 (sets action).2 false) variables.

(** What is on [console.error] after a function with the [catch] block of
    [prefix] ended with [o]: nothing when it returned, the error it threw,
    after the prefix, when it has a [catch] block. *)
Definition reported {A : Type} (prefix : option string) (o : JS.outcome A)
    (errors : list (list JS.jsval)) : Prop :=
  match o with
  | JS.Ret _ => errors = []
  | JS.Throw e =>
      errors = match prefix with
               | Some words => [[JS.VStr words; JS.VError e]]
               | None => []
               end
  | JS.Exit _ => False
  end.


(** * Properties *)

(** ** Strings *)

Module StrFacts.
Import Str.

Lemma app_nil_l (s : string) : EmptyString +:+ s = s.
Proof. reflexivity. Qed.

Lemma app_cons (c : ascii) (s t : string) : String c s +:+ t = String c (s +:+ t).
Proof. reflexivity. Qed.

Lemma app_nil_r (s : string) : s +:+ EmptyString = s.
Proof. induction s as [|c s IH]; [done|]. by rewrite app_cons, IH. Qed.

Lemma app_assoc (s1 s2 s3 : string) : (s1 +:+ s2) +:+ s3 = s1 +:+ s2 +:+ s3.
Proof. induction s1 as [|c s1 IH]; [done|]. by rewrite !app_cons, IH. Qed.

Lemma length_app (s1 s2 : string) :
  String.length (s1 +:+ s2) = String.length s1 + String.length s2.
Proof. induction s1 as [|c s1 IH]; [done|]. rewrite app_cons. simpl. by rewrite IH. Qed.


Lemma span_app (p : ascii → bool) (s rest : string) :
  forall_chars p s = true → starts_with p rest = false →
  span p (s +:+ rest) = (s, rest).
Proof.
  intros Hs Hrest. induction s as [|c s IH].
  - rewrite app_nil_l. destruct rest as [|d rest]; simpl in *; [done|]. by rewrite Hrest.
  - rewrite app_cons. simpl in *. apply andb_prop in Hs as [-> Hs]. by rewrite (IH Hs).
Qed.




End StrFacts.

(** ** The placeholder scanner *)

Module ScanFacts.
Import Str StrFacts VariableStore Template.

Lemma starts_with_app (p : ascii → bool) (s t : string) :
  starts_with p (s +:+ t) = match s with EmptyString => starts_with p t | String c _ => p c end.
Proof. by destruct s. Qed.

Lemma name_starts_with_word (name : string) (t : string) :
  is_name name = true → starts_with is_word (name +:+ t) = true.
Proof.
  destruct name as [|c name]; [done|]. simpl. by intros [? _]%andb_prop.
Qed.









Section scan.
Context (lookup : string → option string).





End scan.

Lemma scan_ext (f g : string → option string) (skip : nat) (s : string) :
  (∀ name, f name = g name) → scan f skip s = scan g skip s.
Proof.
  intros Hfg. revert skip. induction s as [|c s IH]; [done|]. intros [|k].
  - cbn [scan]. destruct (placeholder_at (String c s)) as [[name len]|].
    + by rewrite Hfg, IH.
    + by rewrite IH.
  - cbn [scan]. apply IH.
Qed.



End ScanFacts.

(** ** The variable store *)

Module VariableStoreFacts.
Import VariableStore ScanFacts.

Lemma get_set (store : t) (name val : string) (sens : bool) :
  eval (get name) (exec (set name val sens) store) = Some val.
Proof. unfold eval, exec, get, set. simpl. by rewrite lookup_insert_eq. Qed.

Lemma get_set_ne (store : t) (name name' val : string) (sens : bool) :
  name ≠ name' →
  eval (get name') (exec (set name val sens) store) = eval (get name') store.
Proof. intros. unfold eval, exec, get, set. simpl. by rewrite lookup_insert_ne. Qed.

Lemma set_set (store : t) (name v1 v2 : string) (s1 s2 : bool) :
  exec (set name v2 s2) (exec (set name v1 s1) store) = exec (set name v2 s2) store.
Proof. unfold exec, set. simpl. apply insert_insert_eq. Qed.

Lemma lookup_masked (store : t) (name : string) :
  value <$> masked store !! name = shown <$> store !! name.
Proof. unfold masked. rewrite lookup_fmap. by destruct (store !! name). Qed.

Lemma shown_low_equivalent (store1 store2 : t) (name : string) :
  low_equivalent store1 store2 →
  shown <$> store1 !! name = shown <$> store2 !! name.
Proof.
  intros H. specialize (H name).
  destruct (store1 !! name) as [[v1 s1]|], (store2 !! name) as [[v2 s2]|]; try done.
  simpl in *. destruct H as [<- Hv]. unfold shown. simpl.
  destruct s1; [done|]. by rewrite Hv.
Qed.

Lemma low_equivalent_set (store : t) (name v1 v2 : string) :
  low_equivalent (exec (set name v1 true) store) (exec (set name v2 true) store).
Proof.
  intros n. unfold exec, set. simpl.
  destruct (decide (name = n)) as [->|Hne].
  - by rewrite !lookup_insert_eq.
  - rewrite !lookup_insert_ne by done. by destruct (store !! n).
Qed.

End VariableStoreFacts.

Section variable_store.
Import VariableStore ScanFacts.

(** C1. [set] inserts or overwrites by name and [get] returns the value
    stored last: after [set(n, v)], [get(n)] is [v]; after [set(n, v1)] and
    [set(n, v2)], [get(n)] is [v2], and the store is the one a single
    [set(n, v2)] gives. *)
Theorem set_then_get (store : VariableStore.t) (n v v1 v2 : string) (s s1 s2 : bool) :
  eval (get n) (exec (set n v s) store) = Some v
  ∧ eval (get n) (exec (set n v2 s2) (exec (set n v1 s1) store)) = Some v2
  ∧ exec (set n v2 s2) (exec (set n v1 s1) store) = exec (set n v2 s2) store.
Proof.
  split_and!.
  - apply VariableStoreFacts.get_set.
  - apply VariableStoreFacts.get_set.
  - apply VariableStoreFacts.set_set.
Qed.



(** C3. [renderForLog] is [resolve] on the store with the value of every
    sensitive variable replaced by the mask token; after
    [set("p", secret, true)], [renderForLog("$p")] is the mask token whatever
    [secret] is; and two stores that differ only in the values of sensitive
    variables render every text alike. *)
Theorem renderForLog_masks
    (store store' : VariableStore.t) (text secret : string)
    (Hlow : low_equivalent store store') :
  eval (renderForLog text) store = eval (resolve text) (masked store)
  ∧ eval (renderForLog "$p") (exec (set "p" secret true) store) = mask_token
  ∧ mask_token ≠ "secret"
  ∧ eval (renderForLog text) store = eval (renderForLog text) store'.
Proof.
  split_and!.
  - unfold eval, renderForLog, resolve, substitute. simpl.
    apply scan_ext. intros name. by rewrite VariableStoreFacts.lookup_masked.
  - unfold eval, exec, renderForLog, set, substitute. simpl. cbn. by rewrite lookup_insert_eq.
  - done.
  - unfold eval, renderForLog, substitute. simpl.
    apply scan_ext. intros name. by apply VariableStoreFacts.shown_low_equivalent.
Qed.

(** Two stores whose password differs render the instruction alike. *)
Lemma renderForLog_masks_witness :
  let store v := create [("username", "standard_user"); ("password", v)] ["password"] in
  eval (renderForLog "Type {{ password }} for $username") (store "secret_sauce")
  = eval (renderForLog "Type {{ password }} for $username") (store "hunter2").
Proof.
  intros store.
  apply (renderForLog_masks (store "secret_sauce") (store "hunter2") _ "secret").
  apply (VariableStoreFacts.low_equivalent_set
           (create [("username", "standard_user")] []) "password").
Defined.

(** C4. Masking is for display only: [renderForLog] leaves the store as it
    is, [get] leaves it as it is and returns the stored value ([None] for a
    name that is not set), and after [set(n, v, sensitive)] and any number of
    [renderForLog] calls, [get(n)] is still [v], sensitive or not. *)
Theorem masking_keeps_store
    (store : VariableStore.t) (n v text : string) (sens : bool) (texts : list string) :
  exec (renderForLog text) store = store
  ∧ exec (get n) store = store
  ∧ eval (get n) store = value <$> store !! n
  ∧ eval (get n)
      (foldl (λ st t, exec (renderForLog t) st) (exec (set n v sens) store) texts)
    = Some v.
Proof.
  split_and!; try done.
  assert (foldl (λ st t, exec (renderForLog t) st) (exec (set n v sens) store) texts
          = exec (set n v sens) store) as ->.
  { induction texts as [|t texts IH]; [done|]. simpl. apply IH. }
  apply VariableStoreFacts.get_set.
Qed.

End variable_store.

(** ** Running scripts *)

Module RunFacts.
Import JS Script.

(** Unfold the monad and the helpers of the scripts, leaving the world's
    answers, the strings and the traces as they are. *)
Ltac unfold_run :=
  cbv beta iota zeta delta
    [mbind mret M_bind M_ret ask await throw world process_exit
     console_log console_error log try_catch try_finally promise_catch
     load __dirname path_resolve api_key_guard anthropic_api_key google_api_key
     agent_assert agent_step for_each agent_config].

Ltac unfold_run_in H :=
  cbv beta iota zeta delta
    [mbind mret M_bind M_ret ask await throw world process_exit
     console_log console_error log try_catch try_finally promise_catch
     load __dirname path_resolve api_key_guard anthropic_api_key google_api_key
     agent_assert agent_step for_each agent_config] in H.

(** One step of a run kept in the hypothesis [Hrun], in a world whose
    calls that can throw succeed ([Hw]): name the answer to an [agent.step],
    take the answer to a call that can throw, or split on a condition the
    script branches on. *)
Ltac run_step Hrun Hw :=
  first
    [ match type of Hrun with
      | context [respond ?w AgentStepResult ?tr ?c] =>
          let r := fresh "result" in
          let Hr := fresh "Hresult" in
          remember (respond w AgentStepResult tr c) as r eqn:Hr
      end
    | match type of Hrun with
      | context [respond ?w (result ?A) ?tr ?c] =>
          let a := fresh "a" in
          let Ha := fresh "Ha" in
          destruct (Hw _ tr c) as [a Ha]; rewrite Ha in Hrun; clear Ha;
          lazymatch type of a with
          | unit => destruct a
          | _ => idtac
          end;
          cbv beta iota in Hrun
      end
    | match type of Hrun with
      | context [match ?b with true => _ | false => _ end ?w' ?tr] =>
          destruct b eqn:?; cbv beta iota in Hrun
      end ].

(** A script returns nothing: its value is [tt]. *)
Ltac returns_unit :=
  solve [ reflexivity
        | match goal with |- Ret ?u = Ret tt => destruct u; reflexivity end ].

(** Find the line in what was logged. *)
Ltac find_line := solve [repeat first [left; reflexivity | right]].

(** The worlds made by [Worlds.make] let every call succeed. *)
Lemma make_succeeds (b : Worlds.Behaviour) : succeeds (Worlds.make b).
Proof. intros A tr c. destruct c; simpl; unfold is_ok; eauto. Qed.

(** The head of a script in a world where the imports succeed. *)
Lemma load_run (w : World) (dotenv : list string) (tr : list event) :
  imports_succeed w →
  ∃ path, load dotenv w tr
    = (Ret tt, tr ++ [Ev (DotenvConfig path); Ev (Import "playwright");
                      Ev (Import "@shiplightai/sdk")]).
Proof.
  intros Hw. eexists. unfold_run. rewrite !Hw. cbv beta iota.
  rewrite <- !app_assoc. reflexivity.
Qed.

End RunFacts.

Section api_key.
Import JS Script RunFacts.

(** The guard of every script: no key that is truthy, no run. *)
Lemma guard_exits
    (keys : list string) (script : M unit) (w : World)
    (Hscript : In (keys, script) example_scripts)
    (Himports : imports_succeed w)
    (Hempty : ∀ key, In key keys → unset_or_empty w key) :
  exits_before_sdk script w.
Proof.
  unfold example_scripts in Hscript. simpl in Hscript.
  repeat destruct Hscript as [[= <- <-]|Hscript]; try done.
  all: unfold exits_before_sdk.
  all: try (pose proof (Hempty "ANTHROPIC_API_KEY" ltac:(simpl; auto)) as Hkey).
  all: try (pose proof (Hempty "GOOGLE_API_KEY" ltac:(simpl; auto)) as Hkey;
            pose proof (Hempty "GOOGLE_GENERATIVE_AI_API_KEY" ltac:(simpl; auto)) as Hkey').
  all: unfold unset_or_empty in *.
  1-4: eexists [_; _; _; _], _, _.
  5-9: eexists [_; _; _; _; _], _, _.
  all: unfold SdkExamples.quickStart_ts, SdkExamples.customActions_ts,
         SdkExamples.variablesExample_ts, Examples.extractionExample_ts,
         Examples.basicUsage_ts, Examples.selfHealingExample_ts,
         Examples.variablesExample_ts, Examples.fileOperationsExample_ts,
         Examples.loginExample_ts.
  all: unfold_run; rewrite ?Himports; cbv beta iota.
  all: repeat match goal with
       | |- context [respond ?w' (option string) ?tr (GetEnv ?k)] =>
           let H := fresh in
           match goal with
           | Hk : ∀ tr', truthy (respond _ _ tr' (GetEnv k)) = false |- _ =>
               pose proof (Hk tr) as H
           end;
           destruct (respond w' (option string) tr (GetEnv k)) as [[|? ?]|];
           [|discriminate H|]; clear H; cbv beta iota delta [truthy]
       end.
  all: split_and!; try reflexivity; done.
Qed.

(** C7, as amended.  In every example script, if the API key variable is
    unset and, in the Gemini scripts, the fallback
    [GOOGLE_GENERATIVE_AI_API_KEY] is unset too, the script prints to the
    console and ends the process with exit code 1 before it configures the
    SDK or creates an agent. *)
Theorem missing_api_key_exits
    (keys : list string) (script : M unit) (w : World)
    (Hscript : In (keys, script) example_scripts)
    (Himports : imports_succeed w)
    (Hunset : ∀ key, In key keys → unset w key) :
  exits_before_sdk script w.
Proof.
  apply (guard_exits keys); [done|done|].
  intros key Hkey tr. by rewrite (Hunset key Hkey tr).
Qed.

(** With neither Gemini variable set, [basicUsage.ts] exits. *)
Lemma missing_api_key_exits_witness :
  exits_before_sdk Examples.basicUsage_ts (Worlds.make Worlds.quiet).
Proof.
  apply (missing_api_key_exits ["GOOGLE_API_KEY"; "GOOGLE_GENERATIVE_AI_API_KEY"]).
  - do 4 right. left. reflexivity.
  - intros tr specifier. reflexivity.
  - intros key [<-|[<-|[]]] tr; reflexivity.
Defined.

(** C7, as it stands, fails: with [GOOGLE_API_KEY] unset and the fallback
    [GOOGLE_GENERATIVE_AI_API_KEY] set, [basicUsage.ts] does not exit; it
    configures the SDK, creates the agent and runs to its end. *)
Lemma fallback_key_counterexample :
  imports_succeed (Worlds.make Worlds.fallback_key_only)
  ∧ unset (Worlds.make Worlds.fallback_key_only) "GOOGLE_API_KEY"
  ∧ fst (Examples.basicUsage_ts (Worlds.make Worlds.fallback_key_only) []) = Ret tt
  ∧ existsb uses_sdk (snd (Examples.basicUsage_ts (Worlds.make Worlds.fallback_key_only) []))
    = true
  ∧ ¬ exits_when_unset "GOOGLE_API_KEY" Examples.basicUsage_ts.
Proof.
  assert (fst (Examples.basicUsage_ts (Worlds.make Worlds.fallback_key_only) []) = Ret tt)
    as Hrun by (vm_compute; reflexivity).
  split_and!; [done|done|done|by vm_compute|].
  intros Hexits.
  destruct (Hexits (Worlds.make Worlds.fallback_key_only)) as (tr & error & hint & Hexit & _);
    [done|done|].
  rewrite Hexit in Hrun. discriminate.
Qed.

End api_key.


Section self_healing.
Import JS Script RunFacts.



End self_healing.


Section assertions.
Import JS Script RunFacts.



End assertions.

(** ** [parseInt] *)

Module NumberFacts.
Import Str StrFacts Number.

Lemma digit_not_blank (c : ascii) : is_digit c = true → is_blank c = false.
Proof. destruct c as [[] [] [] [] [] [] [] []]; by vm_compute. Qed.


Lemma uint_digits (d : Decimal.uint) :
  forall_chars is_digit (NilEmpty.string_of_uint d) = true.
Proof. induction d; simpl; try done. Qed.

Lemma uint_value (d : Decimal.uint) (acc : nat) :
  digits_value (Z.of_nat acc) (NilEmpty.string_of_uint d)
  = Z.of_nat (Nat.of_uint_acc d acc).
Proof.
  revert acc. induction d; intros acc; simpl; [done|..].
  all: rewrite Nat.tail_mul_spec, <- IHd; f_equal; unfold digit_value.
  all: match goal with
       | |- context [Z.of_nat (nat_of_ascii ?c)] =>
           let v := eval vm_compute in (Z.of_nat (nat_of_ascii c)) in
           change (Z.of_nat (nat_of_ascii c)) with v
       end; lia.
Qed.

Lemma show_nat_digits (n : nat) :
  ∃ c s, Script.show_nat n = String c s
    ∧ is_digit c = true ∧ forall_chars is_digit s = true
    ∧ digits_value 0 (String c s) = Z.of_nat n.
Proof.
  unfold Script.show_nat.
  pose proof (DecimalNat.Unsigned.of_to n) as Hn. unfold Nat.of_uint in Hn.
  pose proof (uint_value (Nat.to_uint n) 0) as Hv. rewrite Hn in Hv.
  pose proof (uint_digits (Nat.to_uint n)) as Hd.
  destruct (Nat.to_uint n) as [|d|d|d|d|d|d|d|d|d|d]; simpl in *.
  { exists "0"%char, EmptyString. subst n. done. }
  all: eexists _, _; split; [reflexivity|]; split; [done|]; split; [done|]; done.
Qed.



End NumberFacts.

Section cart.
Import JS Script RunFacts Number.



Lemma click_down_run (w : World) (removeButtons : string) (n : nat) (tr : list event) :
  (∀ tr' i, respond w _ tr' (LocatorNthClick removeButtons i) = Ok tt) →
  Cart.click_down removeButtons n w tr
  = (Ret tt, tr ++ map (λ i, Ev (LocatorNthClick removeButtons i)) (rev (seq 0 n))).
Proof.
  intros Hclick. revert tr. induction n as [|n IH]; intros tr.
  - simpl. by rewrite app_nil_r.
  - rewrite seq_S, rev_app_distr. cbn [Cart.click_down]. unfold_run.
    rewrite Hclick. cbv beta iota. rewrite IH. simpl. by rewrite <- app_assoc.
Qed.

Lemma rev_seq_lookup (n j : nat) : j < n → rev (seq 0 n) !! j = Some (n - 1 - j).
Proof.
  intros Hj. rewrite rev_alt. change (rev_append (seq 0 n) []) with (reverse (seq 0 n)).
  rewrite reverse_lookup by (rewrite length_seq; lia).
  rewrite length_seq. rewrite lookup_seq_lt by lia. f_equal. lia.
Qed.

(** A page that keeps its buttons answers the same with more buttons after
    the ones asked for. *)
Lemma buttons_clicked_app {B : Type} (l r : list B) (indices : list nat) :
  Forall (λ i, i < length l) indices →
  buttons_clicked false (l ++ r) indices = buttons_clicked false l indices.
Proof.
  induction 1 as [|i indices Hi _ IH]; [done|].
  cbn [buttons_clicked]. rewrite IH. f_equal. by apply lookup_app_l.
Qed.

(** Clicking from the last index down reaches every button of the page
    once, last first, whether or not a click takes its button off the
    page. *)
Lemma buttons_clicked_down {B : Type} (removes : bool) (buttons : list B) :
  buttons_clicked removes buttons (rev (seq 0 (length buttons))) = Some <$> rev buttons.
Proof.
  induction buttons as [|x l IH] using rev_ind; [done|].
  rewrite length_app, Nat.add_comm. cbn [length Nat.add].
  rewrite seq_S, !rev_app_distr. cbn [rev app buttons_clicked Nat.add fmap list_fmap].
  f_equal.
  - rewrite lookup_app_r by lia. by rewrite Nat.sub_diag.
  - rewrite <- IH. destruct removes.
    + rewrite delete_middle. by rewrite app_nil_r.
    + apply buttons_clicked_app. apply Forall_forall. intros i Hi.
      apply list_elem_of_In, in_rev, in_seq in Hi. lia.
Qed.

(** C9.  [clearCart] goes to [/cart.html], counts the buttons, and clicks
    the button at each index below the count once, from [count - 1] down to
    [0]: the [j]-th click is on index [count - 1 - j], and nothing else is
    done.  On a page that held [count] buttons when they were counted, these
    clicks reach every button once, the last one first, whether or not a
    click takes its button off the page. *)
Theorem clearCart_clicks_down (w : World) (tr : list event) (count : nat)
    (Hgoto : respond w _ tr (PageGoto "/cart.html") = Ok tt)
    (Hcount : respond w _ (tr ++ [Ev (PageGoto "/cart.html")])
                (LocatorCount "button.cart_button") = Ok count)
    (Hclick : ∀ tr' i, respond w _ tr' (LocatorNthClick "button.cart_button" i) = Ok tt) :
  let run := Cart.clearCart w tr in
  let clicked := rev (seq 0 count) in
  run = (Ret tt, tr ++ Ev (PageGoto "/cart.html") :: Ev (LocatorCount "button.cart_button")
                       :: map (λ i, Ev (LocatorNthClick "button.cart_button" i)) clicked)
  ∧ clicks (snd run) = clicks tr ++ map (λ i, ("button.cart_button", i)) clicked
  ∧ length clicked = count
  ∧ (∀ j, j < count → clicked !! j = Some (count - 1 - j))
  ∧ NoDup clicked
  ∧ (∀ i, i ∈ clicked ↔ i < count)
  ∧ (∀ (B : Type) (removes : bool) (buttons : list B),
       length buttons = count →
       buttons_clicked removes buttons clicked = Some <$> rev buttons).
Proof.
  intros run clicked.
  assert (run = (Ret tt, tr ++ Ev (PageGoto "/cart.html")
                          :: Ev (LocatorCount "button.cart_button")
                          :: map (λ i, Ev (LocatorNthClick "button.cart_button" i)) clicked))
    as Hrun.
  { subst run. unfold Cart.clearCart. unfold_run. rewrite Hgoto. cbv beta iota.
    rewrite Hcount. cbv beta iota. rewrite click_down_run by done.
    by rewrite <- !app_assoc. }
  split_and!.
  - done.
  - rewrite Hrun. cbn [snd]. unfold clicks. rewrite omap_app. f_equal. simpl.
    clear Hrun. induction clicked as [|i l IH]; [done|]. simpl. by rewrite IH.
  - subst clicked. by rewrite length_rev, length_seq.
  - intros j Hj. by apply rev_seq_lookup.
  - subst clicked. apply NoDup_ListNoDup, NoDup_rev, NoDup_ListNoDup, NoDup_seq.
  - intros i. subst clicked. rewrite list_elem_of_In, <- in_rev, <- list_elem_of_In, elem_of_seq. lia.
  - intros B removes buttons <-. apply buttons_clicked_down.
Qed.

(** A cart with three "Remove" buttons: indices 2, 1, 0. *)
Lemma clearCart_clicks_down_witness :
  clicks (snd (Cart.clearCart (Worlds.make (Worlds.cart None 3)) []))
  = [("button.cart_button", 2); ("button.cart_button", 1); ("button.cart_button", 0)].
Proof.
  rewrite (proj1 (proj2 (clearCart_clicks_down (Worlds.make (Worlds.cart None 3)) [] 3
                           eq_refl eq_refl (λ _ _, eq_refl)))).
  reflexivity.
Defined.

End cart.

Section custom_actions.
Import JS Script RunFacts SdkExamples.

(** C10.  Each of the three custom actions, whenever its [execute] runs,
    stores its fixed value in [ctx.variableStore] ([verificationCode] is
    [123456], [smsCode] is [987654], [userVerified] is [true]) and returns
    [success: true] with a message that is not empty; it does not throw and
    does not return [success: false]. *)
Theorem custom_actions_store_and_succeed
    (email : EmailArgs) (sms : SmsArgs) (user : UserArgs) :
  stores_and_succeeds (get_email_verification_code email) "verificationCode" "123456"
  ∧ stores_and_succeeds (send_sms_code sms) "smsCode" "987654"
  ∧ stores_and_succeeds (check_user_status user) "userVerified" "true".
Proof.
  split_and!; intros ctx w tr; eexists _, _, _.
  all: split;
    [unfold get_email_verification_code, send_sms_code, check_user_status;
     unfold_run; reflexivity|].
  all: split_and!; try done.
  all: cbn [variableStore variableStore_set]; apply VariableStoreFacts.get_set.
Qed.

End custom_actions.

Section more_scripts.
Import JS Script RunFacts.

(** In [quickStart], a failed assertion is logged by the [catch] block,
    nothing is extracted, the browser is closed after the wait, and the
    error is thrown again; the script's [.catch(console.error)] logs it a
    second time. *)
Theorem quickStart_logs_failure_twice (w : World) (reason : string)
    (Hw : succeeds w)
    (Hassert : ∀ tr, respond w _ tr (AgentAssert "Products page is visible") = Some reason) :
  let error := {| message := reason |} in
  let run := SdkExamples.quickStart w [] in
  let handled := promise_catch SdkExamples.quickStart
                   (λ error, console_error [VError error]) w [] in
  fst run = Throw error
  ∧ errors_logged (snd run) = [[VStr "Quick start failed:"; VError error]]
  ∧ extracted (snd run) = []
  ∧ (∃ tr, snd run = tr ++ [Ev (PageWaitForTimeout 3000); Ev BrowserClose])
  ∧ fst handled = Ret tt
  ∧ errors_logged (snd handled)
    = [[VStr "Quick start failed:"; VError error]; [VError error]].
Proof.
  intros error run handled. subst error run handled. unfold promise_catch, try_catch.
  remember (SdkExamples.quickStart w []) as r eqn:Hrun.
  unfold SdkExamples.quickStart in Hrun.
  unfold_run_in Hrun. cbv [app] in Hrun.
  repeat first
    [ progress (rewrite ?Hassert in Hrun; cbv beta iota in Hrun)
    | run_step Hrun Hw ].
  destruct r as [out tr]; injection Hrun as Hout Htr; cbn [fst snd].
  subst out. unfold console_error, ask. cbn [fst snd]. rewrite Htr.
  split_and!; [reflexivity|reflexivity|reflexivity| |returns_unit|reflexivity].
  by eexists [_; _; _; _; _; _; _; _; _; _; _].
Qed.

Lemma quickStart_logs_failure_twice_witness :
  errors_logged
    (snd (promise_catch SdkExamples.quickStart (λ error, console_error [VError error])
            (Worlds.make Worlds.nothing_holds) []))
  = [[VStr "Quick start failed:"; VError {| message := "The condition does not hold" |}];
     [VError {| message := "The condition does not hold" |}]].
Proof.
  exact (proj2 (proj2 (proj2 (proj2 (proj2
           (quickStart_logs_failure_twice (Worlds.make Worlds.nothing_holds)
              "The condition does not hold" (make_succeeds _) (λ _, eq_refl))))))).
Defined.

(** In [loginExample], when [agent.login] answers [false] the script throws
    [Error('Login failed')]: nothing is asserted or extracted, the [catch]
    block logs the error and the browser is closed. *)
Theorem loginExample_stops_on_failed_login (w : World)
    (Hw : succeeds w)
    (Hlogin : ∀ tr opts, respond w _ tr (AgentLogin opts) = Ok false) :
  let error := {| message := "Login failed" |} in
  let run := Examples.loginExample w [] in
  fst run = Throw error
  ∧ errors_logged (snd run) = [[VStr "Login example failed:"; VError error]]
  ∧ asserted (snd run) = []
  ∧ extracted (snd run) = []
  ∧ last (snd run) = Some (Ev BrowserClose).
Proof.
  intros error run. subst error run.
  remember (Examples.loginExample w []) as r eqn:Hrun.
  unfold Examples.loginExample in Hrun.
  unfold_run_in Hrun. cbv [app] in Hrun.
  repeat first
    [ progress (rewrite ?Hlogin in Hrun; cbv beta iota delta [negb] in Hrun)
    | run_step Hrun Hw ].
  destruct r as [out tr]; injection Hrun as Hout Htr; cbn [fst snd].
  subst out. rewrite Htr.
  split_and!; reflexivity.
Qed.

Lemma loginExample_stops_on_failed_login_witness :
  fst (Examples.loginExample (Worlds.make Worlds.login_refused) [])
  = Throw {| message := "Login failed" |}.
Proof.
  exact (proj1 (loginExample_stops_on_failed_login (Worlds.make Worlds.login_refused)
                  (make_succeeds _) (λ _ _, eq_refl))).
Defined.

(** The guard of every script takes an empty key for a missing one: with
    the key variables unset or empty, the script exits with code 1 before it
    uses the SDK. *)
Theorem empty_api_key_exits
    (keys : list string) (script : M unit) (w : World)
    (Hscript : In (keys, script) example_scripts)
    (Himports : imports_succeed w)
    (Hempty : ∀ key, In key keys → unset_or_empty w key) :
  exits_before_sdk script w.
Proof. by apply (guard_exits keys). Qed.

Lemma empty_api_key_exits_witness :
  exits_before_sdk SdkExamples.quickStart_ts (Worlds.make Worlds.empty_keys).
Proof.
  apply (empty_api_key_exits ["ANTHROPIC_API_KEY"]).
  - left. reflexivity.
  - intros tr specifier. reflexivity.
  - intros key [<-|[]] tr. reflexivity.
Defined.

End more_scripts.

(** * More properties of the scripts and the helpers *)

(** ** Computations confined to some kinds of calls *)

Module ConfinedFacts.
Import JS Script.

Section confined.
Context (allowed : event → bool).

Lemma confined_ret {A} (a : A) : confined allowed (mret a).
Proof. intros w tr. split; [done|]. exists []. by rewrite app_nil_r. Qed.

Lemma confined_throw {A} (e : Error) : confined allowed (throw e : M A).
Proof. intros w tr. split; [done|]. exists []. by rewrite app_nil_r. Qed.

Lemma confined_world : confined allowed world.
Proof. intros w tr. split; [done|]. exists []. by rewrite app_nil_r. Qed.

Lemma confined_bind {A B} (m : M A) (f : A → M B) :
  confined allowed m → (∀ a, confined allowed (f a)) → confined allowed (m ≫= f).
Proof.
  intros Hm Hf w tr. destruct (Hm w tr) as [Hexit (tr1 & Htr1 & Hall1)].
  unfold mbind, M_bind. destruct (m w tr) as [[a|e|code] tr'] eqn:Hrun; simpl in *.
  - subst tr'. destruct (Hf a w (tr ++ tr1)) as [Hexit2 (tr2 & Htr2 & Hall2)].
    split; [done|]. exists (tr1 ++ tr2). rewrite Htr2, <- app_assoc.
    split; [done|]. rewrite forallb_app. by rewrite Hall1, Hall2.
  - split; [done|]. eauto.
  - by destruct (Hexit code).
Qed.

Lemma confined_ask {A} (c : call A) : allowed (Ev c) = true → confined allowed (ask c).
Proof.
  intros Hc w tr. split; [done|]. exists [Ev c]. simpl. by rewrite Hc.
Qed.

Lemma confined_await {A} (c : call (result A)) :
  allowed (Ev c) = true → confined allowed (await c).
Proof.
  intros Hc. apply confined_bind; [by apply confined_ask|].
  intros [a|e]; [apply confined_ret|apply confined_throw].
Qed.

Lemma confined_try_catch {A} (m : M A) (h : Error → M A) :
  confined allowed m → (∀ e, confined allowed (h e)) → confined allowed (try_catch m h).
Proof.
  intros Hm Hh w tr. destruct (Hm w tr) as [Hexit (tr1 & Htr1 & Hall1)].
  unfold try_catch. destruct (m w tr) as [[a|e|code] tr'] eqn:Hrun; simpl in *.
  - split; [done|]. eauto.
  - subst tr'. destruct (Hh e w (tr ++ tr1)) as [Hexit2 (tr2 & Htr2 & Hall2)].
    split; [done|]. exists (tr1 ++ tr2). rewrite Htr2, <- app_assoc.
    split; [done|]. rewrite forallb_app. by rewrite Hall1, Hall2.
  - by destruct (Hexit code).
Qed.

Lemma confined_try_finally {A} (m : M A) (f : M unit) :
  confined allowed m → confined allowed f → confined allowed (try_finally m f).
Proof.
  intros Hm Hf w tr. destruct (Hm w tr) as [Hexit (tr1 & Htr1 & Hall1)].
  unfold try_finally. destruct (m w tr) as [r tr'] eqn:Hrun; simpl in *. subst tr'.
  destruct (Hf w (tr ++ tr1)) as [Hexit2 (tr2 & Htr2 & Hall2)].
  assert (forallb allowed (tr1 ++ tr2) = true) as Hall
    by (rewrite forallb_app; by rewrite Hall1, Hall2).
  destruct r as [a|e|code]; [| |by destruct (Hexit code)].
  all: destruct (f w (tr ++ tr1)) as [[[]|e'|code'] tr''] eqn:Hfin; simpl in *; subst tr''.
  all: try (by destruct (Hexit2 code')).
  all: split; [done|]; exists (tr1 ++ tr2); by rewrite <- app_assoc.
Qed.

Lemma confined_for_each {A} (l : list A) (f : A → M unit) :
  (∀ a, confined allowed (f a)) → confined allowed (for_each l f).
Proof.
  intros Hf. induction l as [|x l IH]; [apply confined_ret|].
  simpl. apply confined_bind; [apply Hf|]. intros _. apply IH.
Qed.

End confined.

(** Take a script apart: every piece of it is confined when its calls are
    of the kind allowed. *)
Ltac confine :=
  repeat
    lazymatch goal with
    | |- confined _ (mret _) => apply confined_ret
    | |- confined _ (throw _) => apply confined_throw
    | |- confined _ world => apply confined_world
    | |- confined _ (ask _) => apply confined_ask; reflexivity
    | |- confined _ (await _) => apply confined_await; reflexivity
    | |- confined _ (try_catch _ _) => apply confined_try_catch; [|intros ?]
    | |- confined _ (try_finally _ _) => apply confined_try_finally
    | |- confined _ (for_each _ _) => apply confined_for_each; intros ?
    | |- confined _ (_ ≫= _) => apply confined_bind; [|intros ?]
    | |- confined _ (if ?b then _ else _) => destruct b
    | |- confined _ (match ?o with Some _ => _ | None => _ end) => destruct o
    | |- confined _ (match ?s with EmptyString => _ | String _ _ => _ end) => destruct s
    | |- confined _ (log _) => unfold log, console_log
    | |- confined _ (console_log _) => unfold console_log
    | |- confined _ (console_error _) => unfold console_error
    | |- confined _ (agent_assert _) => unfold agent_assert
    | |- confined _ (agent_step _ _ _) => unfold agent_step
    | |- confined _ __dirname => unfold __dirname
    | |- confined _ (path_resolve _) => unfold path_resolve
    | |- confined _ (Examples.extract_and_show _ _ _) => unfold Examples.extract_and_show
    | |- confined _ (Examples.extract_and_show_start _ _ _ _) =>
        unfold Examples.extract_and_show_start
    | |- confined _ (Examples.show_extracted _) => unfold Examples.show_extracted
    end.

End ConfinedFacts.


(** ** Stepping through the head of a run *)

Module StepFacts.
Import JS Script.

Lemma ask_bind {A B} (c : call A) (f : A → M B) (w : World) (tr : list event) :
  (ask c ≫= f) w tr = f (respond w A tr c) w (tr ++ [Ev c]).
Proof. reflexivity. Qed.

Lemma log_bind {B} (text : string) (f : unit → M B) (w : World) (tr : list event) :
  (log text ≫= f) w tr
  = f (respond w unit tr (ConsoleLog [VStr text])) w (tr ++ [Ev (ConsoleLog [VStr text])]).
Proof. reflexivity. Qed.

Lemma await_bind_ok {A B} (c : call (result A)) (f : A → M B) (w : World) (tr : list event)
    (a : A) :
  respond w _ tr c = Ok a → (await c ≫= f) w tr = f a w (tr ++ [Ev c]).
Proof. intros H. unfold await, ask, mbind, M_bind. by rewrite H. Qed.

Lemma await_bind_err {A B} (c : call (result A)) (f : A → M B) (w : World) (tr : list event)
    (e : Error) :
  respond w _ tr c = Err e → (await c ≫= f) w tr = (Throw e, tr ++ [Ev c]).
Proof. intros H. unfold await, ask, mbind, M_bind. by rewrite H. Qed.

Lemma ret_bind {A B} (a : A) (f : A → M B) (w : World) (tr : list event) :
  (mret a ≫= f) w tr = f a w tr.
Proof. reflexivity. Qed.

Lemma dirname_bind {B} (f : string → M B) (w : World) (tr : list event) :
  (__dirname ≫= f) w tr = f (dirname w (fileURLToPath w (import_meta_url w))) w tr.
Proof. reflexivity. Qed.

Lemma path_resolve_bind {B} (segments : list string) (f : string → M B) (w : World)
    (tr : list event) :
  (path_resolve segments ≫= f) w tr = f (resolve w segments) w tr.
Proof. reflexivity. Qed.

Lemma fails_on_err {A} (c : call (result A)) (w : World) (tr : list event) (e : Error) :
  error_in (respond w _ tr c) = Some e → respond w _ tr c = Err e.
Proof. destruct (respond w _ tr c); simpl; congruence. Qed.

(** One step at the head of the run kept in [Hrun : r = m w tr], in a
    world where the calls of some kind succeed ([Hw]). *)
Ltac head_by Hrun lemma :=
  let H := fresh in
  pose proof (eq_trans Hrun lemma) as H; clear Hrun; rename H into Hrun; cbv beta in Hrun.

Ltac head_step Hrun Hw :=
  lazymatch type of Hrun with
  | _ = (__dirname ≫= ?f) ?w ?tr => head_by Hrun (dirname_bind f w tr)
  | _ = (path_resolve ?segments ≫= ?f) ?w ?tr => head_by Hrun (path_resolve_bind segments f w tr)
  | _ = (log ?text ≫= ?f) ?w ?tr => head_by Hrun (log_bind text f w tr)
  | _ = (mret ?a ≫= ?f) ?w ?tr => head_by Hrun (ret_bind a f w tr)
  | _ = (await ?c ≫= ?f) ?w ?tr =>
      let a := fresh "a" in
      let Ha := fresh "Ha" in
      destruct (Hw _ tr c eq_refl) as [a Ha];
      head_by Hrun (await_bind_ok c f w tr a Ha); clear Ha;
      lazymatch type of a with
      | unit => destruct a
      | _ => idtac
      end
  | _ = (ask ?c ≫= ?f) ?w ?tr => head_by Hrun (ask_bind c f w tr)
  | _ = ((if ?b then _ else _) ≫= _) ?w ?tr => destruct b
  end.

End StepFacts.


(** ** The [finally] blocks *)

Module FinallyFacts.
Import JS Script ConfinedFacts StepFacts.

Lemma calls_app (kind : event → bool) (l1 l2 : list event) :
  calls kind (l1 ++ l2) = calls kind l1 + calls kind l2.
Proof. unfold calls. by rewrite List.filter_app, length_app. Qed.

Lemma calls_none (kind allowed : event → bool) (tr : list event) :
  (∀ e, allowed e = true → kind e = false) →
  forallb allowed tr = true → calls kind tr = 0.
Proof.
  intros Hk. unfold calls. induction tr as [|e tr IH]; [done|].
  simpl. intros [He Htr]%andb_prop. rewrite (Hk e He). by apply IH.
Qed.

Lemma keeps_not_closes (e : event) : keeps_browser e = true → closes_browser e = false.
Proof. unfold keeps_browser. intros [_ H]%andb_prop. by apply negb_true_iff. Qed.

Lemma keeps_not_launches (e : event) : keeps_browser e = true → launches_browser e = false.
Proof. unfold keeps_browser. intros [H _]%andb_prop. by apply negb_true_iff. Qed.

(** [try { body } finally { await browser.close() }] *)
Lemma try_finally_close {A} (allowed : event → bool) (body : M A) (w : World)
    (tr : list event) :
  confined allowed body →
  (∀ code, fst (try_finally body (await BrowserClose) w tr) ≠ Exit code)
  ∧ ∃ tr', snd (try_finally body (await BrowserClose) w tr) = tr ++ tr' ++ [Ev BrowserClose]
           ∧ forallb allowed tr' = true.
Proof.
  intros Hbody. destruct (Hbody w tr) as [Hexit (tr' & Htr & Hall)].
  unfold try_finally. destruct (body w tr) as [r tr0]. simpl in *. subst tr0.
  unfold await, ask, mbind, M_bind.
  destruct r as [a|e|code]; [| |by destruct (Hexit code)].
  all: destruct (respond w _ (tr ++ tr') BrowserClose) as [[]|e']; simpl.
  all: split; [done|]; exists tr'; by rewrite <- app_assoc.
Qed.

(** [try { body } finally { await page.waitForTimeout(ms); await browser.close() }]
    when the wait does not throw *)
Lemma try_finally_wait_close {A} (allowed : event → bool) (body : M A) (ms : Z) (w : World)
    (tr : list event) :
  confined allowed body → succeeds_on waits w →
  (∀ code, fst (try_finally body (await (PageWaitForTimeout ms);; await BrowserClose) w tr)
           ≠ Exit code)
  ∧ ∃ tr', snd (try_finally body (await (PageWaitForTimeout ms);; await BrowserClose) w tr)
           = tr ++ tr' ++ [Ev (PageWaitForTimeout ms); Ev BrowserClose]
           ∧ forallb allowed tr' = true.
Proof.
  intros Hbody Hwaits. destruct (Hbody w tr) as [Hexit (tr' & Htr & Hall)].
  unfold try_finally. destruct (body w tr) as [r tr0]. simpl in *. subst tr0.
  destruct (Hwaits _ (tr ++ tr') (PageWaitForTimeout ms) eq_refl) as [[] Hwait].
  rewrite (await_bind_ok _ _ _ _ _ Hwait).
  unfold await, ask, mbind, M_bind.
  destruct r as [a|e|code]; [| |by destruct (Hexit code)].
  all: destruct (respond w _ _ BrowserClose) as [[]|e']; simpl.
  all: split; [done|]; exists tr'; by rewrite <- !app_assoc.
Qed.

(** [try { body } finally { await page.waitForTimeout(ms); await browser.close() }]
    when the wait throws *)
Lemma try_finally_wait_throws {A} (allowed : event → bool) (body : M A) (ms : Z) (w : World)
    (tr : list event) (e : Error) :
  confined allowed body →
  (∀ tr', respond w _ tr' (PageWaitForTimeout ms) = Err e) →
  fst (try_finally body (await (PageWaitForTimeout ms);; await BrowserClose) w tr) = Throw e
  ∧ ∃ tr', snd (try_finally body (await (PageWaitForTimeout ms);; await BrowserClose) w tr)
           = tr ++ tr' ++ [Ev (PageWaitForTimeout ms)]
           ∧ forallb allowed tr' = true.
Proof.
  intros Hbody Hwait. destruct (Hbody w tr) as [Hexit (tr' & Htr & Hall)].
  unfold try_finally. destruct (body w tr) as [r tr0]. simpl in *. subst tr0.
  rewrite (await_bind_err _ _ _ _ _ (Hwait _)).
  destruct r as [a|e'|code]; [| |by destruct (Hexit code)].
  all: split; [done|]; exists tr'; by rewrite <- !app_assoc.
Qed.

End FinallyFacts.

(** ** The browser *)

Section browser.
Import JS Script ConfinedFacts StepFacts FinallyFacts.

(** Whatever happens inside the [try] block of a main function, the
    browser it launched is closed: when the preparations before the [try]
    block and the wait of the [finally] block do not throw, the run does not
    end the process, [chromium.launch] and [browser.close] are each called
    once, and [browser.close] is the last call made. *)
Theorem browser_is_closed_once (main : M unit) (w : World)
    (Hmain : In main main_functions)
    (Hprepares : succeeds_on prepares w)
    (Hwaits : succeeds_on waits w) :
  let run := main w [] in
  (∀ code, fst run ≠ Exit code)
  ∧ last (snd run) = Some (Ev BrowserClose)
  ∧ calls launches_browser (snd run) = 1
  ∧ calls closes_browser (snd run) = 1.
Proof.
  intros run. subst run. remember (main w []) as r eqn:Hrun.
  unfold main_functions in Hmain. simpl in Hmain.
  repeat destruct Hmain as [<-|Hmain]; try done.
  all: unfold SdkExamples.quickStart, SdkExamples.customActionsExample,
         SdkExamples.variablesExample, Examples.basicExample, Examples.selfHealingExample,
         Examples.variablesExample, Examples.fileUploadExample, Examples.extractionExample,
         Examples.loginExample in Hrun.
  all: repeat head_step Hrun Hprepares.
  all: lazymatch type of Hrun with
       | _ = try_finally ?body (await BrowserClose) ?w' ?tr =>
           destruct (try_finally_close keeps_browser body w' tr)
             as [Hexit (tr' & Htr & Hall)]; [confine|]
       | _ = try_finally ?body (await (PageWaitForTimeout ?ms);; await BrowserClose) ?w' ?tr =>
           destruct (try_finally_wait_close keeps_browser body ms w' tr)
             as [Hexit (tr' & Htr & Hall)]; [confine|done|]
       end.
  all: rewrite <- Hrun in Hexit, Htr; clear Hrun; rewrite Htr; clear Htr.
  all: split; [exact Hexit|]; clear Hexit.
  all: pose proof (calls_none launches_browser _ _ keeps_not_launches Hall) as Hlaunch.
  all: pose proof (calls_none closes_browser _ _ keeps_not_closes Hall) as Hclose.
  all: split; [by rewrite !last_app|].
  all: rewrite !calls_app, Hlaunch, Hclose; split; reflexivity.
Qed.


(** When the wait of the [finally] block throws, [browser.close()] is not
    reached: the main function throws the error of the wait, whatever its
    [try] block ended with, and the browser it launched stays open. *)
Theorem failed_wait_skips_close (main : M unit) (w : World) (e : Error)
    (Hmain : In main waiting_main_functions)
    (Hprepares : succeeds_on prepares w)
    (Hwait : ∀ tr ms, respond w _ tr (PageWaitForTimeout ms) = Err e) :
  let run := main w [] in
  fst run = Throw e
  ∧ calls launches_browser (snd run) = 1
  ∧ calls closes_browser (snd run) = 0
  ∧ last (snd run) = Some (Ev (PageWaitForTimeout 3000)).
Proof.
  intros run. subst run. remember (main w []) as r eqn:Hrun.
  unfold waiting_main_functions in Hmain. simpl in Hmain.
  repeat destruct Hmain as [<-|Hmain]; try done.
  all: unfold SdkExamples.quickStart, SdkExamples.variablesExample,
         Examples.selfHealingExample, Examples.variablesExample, Examples.fileUploadExample,
         Examples.extractionExample, Examples.loginExample in Hrun.
  all: repeat head_step Hrun Hprepares.
  all: lazymatch type of Hrun with
       | _ = try_finally ?body (await (PageWaitForTimeout ?ms);; await BrowserClose) ?w' ?tr =>
           destruct (try_finally_wait_throws keeps_browser body ms w' tr e)
             as [Hthrow (tr' & Htr & Hall)]; [confine|done|]
       end.
  all: rewrite <- Hrun in Hthrow, Htr; clear Hrun; rewrite Htr; clear Htr.
  all: split; [exact Hthrow|]; clear Hthrow.
  all: pose proof (calls_none launches_browser _ _ keeps_not_launches Hall) as Hlaunch.
  all: pose proof (calls_none closes_browser _ _ keeps_not_closes Hall) as Hclose.
  all: rewrite !calls_app, Hlaunch, Hclose; split_and!; try reflexivity.
  all: by rewrite !last_app.
Qed.

End browser.


(** ** Worlds in which some calls throw *)

Module WorldFacts.
Import JS RunFacts.

Lemma succeeds_on_any (kind : event → bool) (w : World) : succeeds w → succeeds_on kind w.
Proof. intros Hw A tr c _. apply Hw. Qed.

Lemma make_succeeds_on (kind : event → bool) (b : Worlds.Behaviour) :
  succeeds_on kind (Worlds.make b).
Proof. apply succeeds_on_any, make_succeeds. Qed.

(** A world made to fail on some calls lets the others succeed. *)
Lemma failing_succeeds_on (kind fails : event → bool) (e : Error) (b : Worlds.Behaviour) :
  (∀ ev, kind ev = true → fails ev = false) →
  succeeds_on kind (FailingWorlds.make fails e b).
Proof.
  intros Hkind A tr c Hc. simpl. rewrite (Hkind _ Hc). apply (make_succeeds b A tr c).
Qed.

Lemma failing_fails_on (kind : event → bool) (e : Error) (b : Worlds.Behaviour) :
  (∀ A (c : call A) (a : A),
     kind (Ev c) = true → error_of c (FailingWorlds.thrown e c a) = Some e) →
  fails_on kind e (FailingWorlds.make kind e b).
Proof. intros Hkind A tr c Hc. simpl. rewrite Hc. by apply Hkind. Qed.


Lemma prepares_not_waits (ev : event) : prepares ev = true → waits ev = false.
Proof. destruct ev as [A c]. by destruct c. Qed.


End WorldFacts.

Section browser_witnesses.
Import JS Script WorldFacts.

(** [loginExample] closes the browser last also when the login is refused. *)
Lemma browser_is_closed_once_witness :
  last (snd (Examples.loginExample (Worlds.make Worlds.login_refused) []))
  = Some (Ev BrowserClose).
Proof.
  exact (proj1 (proj2 (browser_is_closed_once Examples.loginExample _
                         ltac:(do 8 right; left; reflexivity)
                         (make_succeeds_on _ _) (make_succeeds_on _ _)))).
Defined.


(** [quickStart] when the wait of its [finally] block throws. *)
Lemma failed_wait_skips_close_witness :
  calls closes_browser
    (snd (SdkExamples.quickStart (FailingWorlds.make waits FailingWorlds.timeout Worlds.quiet) []))
  = 0.
Proof.
  exact (proj1 (proj2 (proj2
           (failed_wait_skips_close SdkExamples.quickStart _ FailingWorlds.timeout
              ltac:(left; reflexivity)
              (failing_succeeds_on _ _ _ _ prepares_not_waits)
              (λ _ _, eq_refl))))).
Defined.

End browser_witnesses.

(** ** More on [helpers/cart.ts] *)

Module NumeralFacts.
Import Str StrFacts Number NumberFacts.

(** The sign [parseInt] reads: nothing, [+] or [-]. *)
Lemma parseInt_10_signed (ws sign rest : string) (n : nat) :
  forall_chars is_blank ws = true →
  sign = EmptyString ∨ sign = "+" ∨ sign = "-" →
  starts_with is_digit rest = false →
  (Z.of_nat n < 2 ^ 53)%Z →
  parseInt_10 (ws +:+ sign +:+ Script.show_nat n +:+ rest)
  = if String.eqb sign "-"
    then (if (Z.of_nat n =? 0)%Z then NegZero else Int (- Z.of_nat n))
    else Int (Z.of_nat n).
Proof.
  intros Hws Hsign Hrest Hn.
  destruct (show_nat_digits n) as (c & s & -> & Hc & Hs & Hv).
  assert (is_blank c = false) as Hcb by by apply digit_not_blank.
  assert (span is_digit (String c s +:+ rest) = (String c s, rest)) as Hdigits.
  { apply span_app; [|done]. simpl. by rewrite Hc, Hs. }
  assert (Z.log2 (Z.of_nat n) < 53)%Z as Hlog.
  { destruct (Z.eq_dec (Z.of_nat n) 0%Z) as [->|]; [done|]. apply Z.log2_lt_pow2; lia. }
  unfold parseInt_10.
  assert (span is_blank (ws +:+ sign +:+ String c s +:+ rest)
          = (ws, sign +:+ String c s +:+ rest)) as ->.
  { apply span_app; [done|]. by destruct Hsign as [->|[->| ->]]. }
  destruct Hsign as [->|[->| ->]].
  - rewrite app_nil_l.
    assert (match String c s +:+ rest with
            | String "-"%char r => (true, r)
            | String "+"%char r => (false, r)
            | _ => (false, String c s +:+ rest)
            end = (false, String c s +:+ rest)) as ->.
    { rewrite app_cons. destruct c as [[] [] [] [] [] [] [] []]; try done. }
    rewrite Hdigits. cbv zeta. rewrite Hv.
    destruct (Z.eqb_spec (Z.of_nat n) 0) as [->|Hne]; [done|].
    unfold of_positive. destruct (Z.leb_spec (Z.log2 (Z.of_nat n) + 1) 53); [|lia].
    simpl. f_equal. lia.
  - change ("+" +:+ String c s +:+ rest) with (String "+"%char (String c s +:+ rest)).
    cbv iota beta. rewrite Hdigits. cbv zeta. rewrite Hv.
    destruct (Z.eqb_spec (Z.of_nat n) 0) as [->|Hne]; [done|].
    unfold of_positive. destruct (Z.leb_spec (Z.log2 (Z.of_nat n) + 1) 53); [|lia].
    simpl. f_equal. lia.
  - change ("-" +:+ String c s +:+ rest) with (String "-"%char (String c s +:+ rest)).
    cbv iota beta. rewrite Hdigits. cbv zeta. rewrite Hv.
    destruct (Z.eqb_spec (Z.of_nat n) 0) as [->|Hne]; [done|].
    unfold of_positive. destruct (Z.leb_spec (Z.log2 (Z.of_nat n) + 1) 53); [|lia].
    simpl. f_equal.
Qed.

End NumeralFacts.

Section cart_more.
Import JS Script RunFacts StepFacts Number.

(** [getCartCount] reads the numeral the badge text starts with: white
    space before it and whatever follows it are ignored and a sign is read,
    so the count of [" 3 items"] is [3], and a badge that reads [-2] gives
    [-2]. *)
Theorem getCartCount_reads_leading_numeral
    (w : World) (tr : list event) (ws sign rest : string) (n : nat)
    (Hvisible : respond w _ tr (LocatorIsVisible ".shopping_cart_badge") = Ok true)
    (Htext : respond w _ (tr ++ [Ev (LocatorIsVisible ".shopping_cart_badge")])
               (LocatorTextContent ".shopping_cart_badge")
             = Ok (Some (ws +:+ sign +:+ show_nat n +:+ rest)))
    (Hws : Str.forall_chars Str.is_blank ws = true)
    (Hsign : sign = EmptyString ∨ sign = "+" ∨ sign = "-")
    (Hrest : Str.starts_with Str.is_digit rest = false)
    (Hn : (Z.of_nat n < 2 ^ 53)%Z) :
  fst (Cart.getCartCount w tr)
  = Ret (if String.eqb sign "-"
         then (if (Z.of_nat n =? 0)%Z then NegZero else Int (- Z.of_nat n))
         else Int (Z.of_nat n)).
Proof.
  unfold Cart.getCartCount. cbv zeta.
  rewrite (await_bind_ok _ _ _ _ _ Hvisible). cbv beta iota.
  rewrite (await_bind_ok _ _ _ _ _ Htext). cbv beta. unfold mret, M_ret. cbn [fst default].
  f_equal. by apply NumeralFacts.parseInt_10_signed.
Qed.

(** A badge that reads [" 3 items"], and one that reads [-2]. *)
Lemma getCartCount_reads_leading_numeral_witness :
  fst (Cart.getCartCount (Worlds.make (Worlds.cart (Some " 3 items") 3)) []) = Ret (Int 3)
  ∧ fst (Cart.getCartCount (Worlds.make (Worlds.cart (Some "-2") 3)) []) = Ret (Int (-2)).
Proof.
  split.
  - exact (getCartCount_reads_leading_numeral
             (Worlds.make (Worlds.cart (Some " 3 items") 3)) [] " " EmptyString " items" 3
             eq_refl eq_refl eq_refl (or_introl eq_refl) eq_refl eq_refl).
  - exact (getCartCount_reads_leading_numeral
             (Worlds.make (Worlds.cart (Some "-2") 3)) [] EmptyString "-" EmptyString 2
             eq_refl eq_refl eq_refl (or_intror (or_intror eq_refl)) eq_refl eq_refl).
Defined.

(** [clearCart] clicks until a click throws. *)
Lemma click_down_fails (w : World) (removeButtons : string) (n i : nat) (e : Error)
    (tr : list event) :
  i < n →
  (∀ tr' j, i < j → respond w _ tr' (LocatorNthClick removeButtons j) = Ok tt) →
  (∀ tr', respond w _ tr' (LocatorNthClick removeButtons i) = Err e) →
  Cart.click_down removeButtons n w tr
  = (Throw e, tr ++ map (λ j, Ev (LocatorNthClick removeButtons j)) (rev (seq i (n - i)))).
Proof.
  intros Hi Habove Hfail. revert tr. induction n as [|n IH]; [lia|]. intros tr.
  cbn [Cart.click_down].
  destruct (decide (n = i)) as [->|Hne].
  - rewrite (await_bind_err _ _ _ _ _ (Hfail tr)).
    replace (S i - i) with 1 by lia. done.
  - rewrite (await_bind_ok _ _ _ _ _ (Habove tr n ltac:(lia))). rewrite IH by lia.
    replace (S n - i) with (S (n - i)) by lia. rewrite seq_S, rev_app_distr. simpl.
    replace (i + (n - i)) with n by lia. by rewrite <- app_assoc.
Qed.

(** When the click on the button at index [i] throws, [clearCart] throws
    that error: it has clicked the buttons at the indices from [count - 1]
    down to [i], each once, the failed click is its last call, and no button
    at an index below [i] is clicked, so those stay in the cart. *)
Theorem clearCart_stops_at_failed_click
    (w : World) (tr : list event) (count i : nat) (e : Error)
    (Hi : i < count)
    (Hgoto : respond w _ tr (PageGoto "/cart.html") = Ok tt)
    (Hcount : respond w _ (tr ++ [Ev (PageGoto "/cart.html")])
                (LocatorCount "button.cart_button") = Ok count)
    (Habove : ∀ tr' j, i < j →
                respond w _ tr' (LocatorNthClick "button.cart_button" j) = Ok tt)
    (Hfail : ∀ tr', respond w _ tr' (LocatorNthClick "button.cart_button" i) = Err e) :
  let run := Cart.clearCart w tr in
  let clicked := rev (seq i (count - i)) in
  fst run = Throw e
  ∧ clicks (snd run) = clicks tr ++ map (λ j, ("button.cart_button", j)) clicked
  ∧ last (snd run) = Some (Ev (LocatorNthClick "button.cart_button" i))
  ∧ NoDup clicked
  ∧ (∀ j, j ∈ clicked ↔ i ≤ j < count).
Proof.
  intros run clicked.
  assert (run = (Throw e, tr ++ Ev (PageGoto "/cart.html")
                             :: Ev (LocatorCount "button.cart_button")
                             :: map (λ j, Ev (LocatorNthClick "button.cart_button" j)) clicked))
    as Hrun.
  { subst run. unfold Cart.clearCart.
    rewrite (await_bind_ok _ _ _ _ _ Hgoto). cbv zeta beta.
    rewrite (await_bind_ok _ _ _ _ _ Hcount).
    rewrite (click_down_fails _ _ _ i e) by done. by rewrite <- !app_assoc. }
  rewrite Hrun. cbn [fst snd]. split_and!.
  - done.
  - unfold clicks. rewrite omap_app. f_equal. simpl.
    clear Hrun. induction clicked as [|j l IH]; [done|]. simpl. by rewrite IH.
  - subst clicked. replace (count - i) with (S (count - i - 1)) by lia.
    cbn [seq rev]. rewrite map_app, !app_comm_cons, app_assoc. apply last_snoc.
  - subst clicked. apply NoDup_ListNoDup, NoDup_rev, NoDup_ListNoDup, NoDup_seq.
  - intros j. subst clicked.
    rewrite list_elem_of_In, <- in_rev, <- list_elem_of_In, elem_of_seq. lia.
Qed.

(** A cart with three buttons whose middle one cannot be clicked: the
    buttons at the indices 2 and 1 are clicked, the button at index 0 is
    not. *)
Lemma clearCart_stops_at_failed_click_witness :
  clicks (snd (Cart.clearCart
                 (FailingWorlds.make (clicks_button 1) FailingWorlds.timeout
                    (Worlds.cart None 3)) []))
  = [("button.cart_button", 2); ("button.cart_button", 1)].
Proof.
  assert (∀ (tr' : list event) (j : nat), 1 < j →
            respond (FailingWorlds.make (clicks_button 1) FailingWorlds.timeout
                       (Worlds.cart None 3)) _ tr'
              (LocatorNthClick "button.cart_button" j) = Ok tt) as Habove.
  { intros tr' [|[|j]] Hj; [lia|lia|reflexivity]. }
  exact (proj1 (proj2
           (clearCart_stops_at_failed_click
              (FailingWorlds.make (clicks_button 1) FailingWorlds.timeout (Worlds.cart None 3))
              [] 3 1 FailingWorlds.timeout ltac:(lia) eq_refl eq_refl Habove (λ _, eq_refl)))).
Defined.

End cart_more.

(** ** More on running scripts *)

Module MoreRunFacts.
Import JS Script.

(** Name the answer to an [agent.getVariable] in the run kept in [Hrun]. *)
Ltac name_variable Hrun :=
  match type of Hrun with
  | context [respond ?w (option string) ?tr (AgentGetVariable ?name)] =>
      let v := fresh "value" in
      let Hv := fresh "Hvalue" in
      remember (respond w (option string) tr (AgentGetVariable name)) as v eqn:Hv
  end.


(** Split on the verdict of an [agent.assert]. *)
Ltac take_verdict Hrun :=
  match type of Hrun with
  | context [respond ?w (option string) ?tr (AgentAssert ?instruction)] =>
      destruct (respond w (option string) tr (AgentAssert instruction)) eqn:?;
      cbv beta iota in Hrun
  end.

End MoreRunFacts.

(** ** [customActionsExample] *)

Section custom_actions_run.
Import JS Script RunFacts MoreRunFacts.



End custom_actions_run.

(** ** The summary of [extractionExample] *)

Module SummaryFacts.
Import JS Script.

Lemma variables_read_from_app (w : World) (before tr1 tr2 : list event) :
  variables_read_from w before (tr1 ++ tr2)
  = variables_read_from w before tr1 ++ variables_read_from w (before ++ tr1) tr2.
Proof.
  revert before. induction tr1 as [|e tr1 IH]; intros before.
  - simpl. by rewrite app_nil_r.
  - cbn [variables_read_from app]. rewrite IH, <- !app_assoc. done.
Qed.



End SummaryFacts.

Section summary.
Import JS Script SummaryFacts.


End summary.

(** ** The top level of a script *)

Module TopLevelFacts.
Import JS Script RunFacts ConfinedFacts StepFacts FinallyFacts.

Lemma bind_run {A B} (m : M A) (f : A → M B) (w : World) (tr tr' : list event) (a : A) :
  m w tr = (Ret a, tr') → (m ≫= f) w tr = f a w tr'.
Proof. intros H. unfold mbind, M_bind. by rewrite H. Qed.

Lemma anthropic_api_key_run (w : World) (env : string → option string) (tr : list event) :
  reads_env w env → truthy (env "ANTHROPIC_API_KEY") = true →
  ∃ key, env "ANTHROPIC_API_KEY" = Some key
    ∧ anthropic_api_key w tr = (Ret key, tr ++ [Ev (GetEnv "ANTHROPIC_API_KEY")]).
Proof.
  intros Henv Hkey. unfold anthropic_api_key. rewrite ask_bind, Henv.
  destruct (env "ANTHROPIC_API_KEY") as [[|c k]|]; try done. eauto.
Qed.

Lemma google_api_key_run (w : World) (env : string → option string) (error : string)
    (tr : list event) :
  reads_env w env →
  truthy (or_else env ["GOOGLE_API_KEY"; "GOOGLE_GENERATIVE_AI_API_KEY"]) = true →
  ∃ key tr', or_else env ["GOOGLE_API_KEY"; "GOOGLE_GENERATIVE_AI_API_KEY"] = Some key
    ∧ google_api_key error w tr = (Ret key, tr ++ tr')
    ∧ forallb (λ e, negb (uses_sdk e)) tr' = true
    ∧ errors_logged tr' = []
    ∧ calls launches_browser tr' = 0.
Proof.
  intros Henv Hkey. unfold google_api_key. rewrite ask_bind, Henv. cbn [or_else] in *.
  destruct (truthy (env "GOOGLE_API_KEY")) eqn:Hfirst.
  - rewrite ret_bind. destruct (env "GOOGLE_API_KEY") as [[|c k]|]; try done.
    eexists _, [_]. split_and!; done.
  - rewrite ask_bind, Henv.
    destruct (env "GOOGLE_GENERATIVE_AI_API_KEY") as [[|c k]|]; try done.
    eexists _, [_; _]. split; [done|]. split; [by rewrite <- app_assoc|]. done.
Qed.

(** No main function does what the top level of a script does. *)
Lemma main_functions_confined (main : M unit) :
  In main main_functions → confined (λ e, negb (top_level e)) main.
Proof.
  unfold main_functions. simpl. intros Hmain.
  repeat destruct Hmain as [<-|Hmain]; try done.
  all: unfold SdkExamples.quickStart, SdkExamples.customActionsExample,
         SdkExamples.variablesExample, Examples.basicExample, Examples.selfHealingExample,
         Examples.variablesExample, Examples.fileUploadExample, Examples.extractionExample,
         Examples.loginExample.
  all: confine.
Qed.

(** The head of a script whose key is set: up to [configureSdk]. *)
Lemma script_head (keys : list string) (script : M unit) (w : World)
    (env : string → option string) :
  In (keys, script) example_scripts →
  imports_succeed w → reads_env w env → truthy (or_else env keys) = true →
  ∃ (tr : list event) (key name : string) (level : option LogLevel) (main : M unit),
    or_else env keys = Some key
    ∧ head keys = Some name
    ∧ In main main_functions
    ∧ forallb (λ e, negb (uses_sdk e)) tr = true
    ∧ errors_logged tr = []
    ∧ calls launches_browser tr = 0
    ∧ script w []
      = (await (ConfigureSdk {| logLevel := level; env := [(name, key)] |})
         ≫= λ _, promise_catch main (λ error, console_error [VError error])) w tr.
Proof.
  intros Hscript Himports Henv Hkey.
  unfold example_scripts in Hscript. simpl in Hscript.
  repeat destruct Hscript as [[= <- <-]|Hscript]; try done.
  all: unfold SdkExamples.quickStart_ts, SdkExamples.customActions_ts,
         SdkExamples.variablesExample_ts, Examples.extractionExample_ts,
         Examples.basicUsage_ts, Examples.selfHealingExample_ts,
         Examples.variablesExample_ts, Examples.fileOperationsExample_ts,
         Examples.loginExample_ts.
  all: match goal with
       | |- context [(load ?dotenv ≫= ?f) ?w' []] =>
           destruct (load_run w' dotenv [] Himports) as [path Hload];
           rewrite (bind_run (load dotenv) f w' [] _ tt Hload); clear Hload; cbv beta
       end.
  all: match goal with
       | |- context [(anthropic_api_key ≫= ?f) ?w' ?tr] =>
           destruct (anthropic_api_key_run w' _ tr Henv Hkey) as (key & Hsome & Hrun);
           rewrite (bind_run anthropic_api_key f w' tr _ key Hrun); clear Hrun; cbv beta
       | |- context [(google_api_key ?error ≫= ?f) ?w' ?tr] =>
           destruct (google_api_key_run w' _ error tr Henv Hkey)
             as (key & tr' & Hsome & Hrun & Hsdk & Herrors & Hlaunch);
           rewrite (bind_run (google_api_key error) f w' tr _ key Hrun); clear Hrun; cbv beta
       end.
  all: eexists _, key, _, _, _.
  all: split; [exact Hsome|]; split; [reflexivity|].
  all: split; [|split; [|split; [|split; [|reflexivity]]]].
  all: try (unfold main_functions; simpl; tauto).
  all: try reflexivity.
Qed.

Lemma bind_throw {A B} (m : M A) (f : A → M B) (w : World) (tr tr' : list event) (e : Error) :
  m w tr = (Throw e, tr') → (m ≫= f) w tr = (Throw e, tr').
Proof. intros H. unfold mbind, M_bind. by rewrite H. Qed.


Lemma promise_catch_confined (main : M unit) :
  In main main_functions →
  confined (λ e, negb (top_level e))
    (promise_catch main (λ error, console_error [VError error])).
Proof.
  intros Hmain. unfold promise_catch. apply confined_try_catch.
  - by apply main_functions_confined.
  - intros e. confine.
Qed.

End TopLevelFacts.

Section top_level.
Import JS Script RunFacts ConfinedFacts StepFacts FinallyFacts TopLevelFacts.

(** A script whose API key is set does not end the process, and the first
    use it makes of the SDK is [configureSdk] with the key it read, under
    the name of the first variable of its guard: a Gemini script hands the
    value of [GOOGLE_API_KEY] when that is set and not empty, and otherwise
    the value of [GOOGLE_GENERATIVE_AI_API_KEY], as [GOOGLE_API_KEY].  The
    SDK is configured once. *)
Theorem api_key_reaches_sdk
    (keys : list string) (script : M unit) (w : World) (env : string → option string)
    (Hscript : In (keys, script) example_scripts)
    (Himports : imports_succeed w)
    (Henv : reads_env w env)
    (Hkey : truthy (or_else env keys) = true) :
  let run := script w [] in
  (∀ code, fst run ≠ Exit code)
  ∧ ∃ (tr tr' : list event) (key name : string) (level : option LogLevel),
      or_else env keys = Some key
      ∧ head keys = Some name
      ∧ snd run = tr ++ Ev (ConfigureSdk {| logLevel := level; env := [(name, key)] |}) :: tr'
      ∧ forallb (λ e, negb (uses_sdk e)) tr = true
      ∧ calls configures tr' = 0.
Proof.
  intros run. subst run.
  destruct (script_head keys script w env Hscript Himports Henv Hkey)
    as (tr & key & name & level & main & Hsome & Hname & Hmain & Hsdk & _ & _ & ->).
  destruct (respond w _ tr (ConfigureSdk {| logLevel := level; env := [(name, key)] |}))
    as [[]|e] eqn:Hconfigure.
  - rewrite (await_bind_ok _ _ _ _ _ Hconfigure).
    destruct (promise_catch_confined main Hmain w
                (tr ++ [Ev (ConfigureSdk {| logLevel := level; env := [(name, key)] |})]))
      as [Hexit (tr' & Htr & Hall)].
    split; [exact Hexit|]. exists tr, tr', key, name, level.
    split_and!; try done.
    + by rewrite Htr, <- app_assoc.
    + apply (calls_none configures (λ e, negb (top_level e))); [|done].
      intros [A c] H. by destruct c.
  - rewrite (await_bind_err _ _ _ _ _ Hconfigure).
    split; [done|]. exists tr, [], key, name, level. done.
Qed.

(** With both Gemini variables set, [GOOGLE_API_KEY] is the one handed to
    the SDK. *)
Lemma api_key_reaches_sdk_witness :
  ∃ (tr tr' : list event) (name : string) (level : option LogLevel),
    snd (Examples.loginExample_ts (Worlds.make MoreWorlds.both_keys) [])
    = tr ++ Ev (ConfigureSdk {| logLevel := level; env := [(name, "first")] |}) :: tr'.
Proof.
  destruct (api_key_reaches_sdk ["GOOGLE_API_KEY"; "GOOGLE_GENERATIVE_AI_API_KEY"]
              Examples.loginExample_ts (Worlds.make MoreWorlds.both_keys)
              (Worlds.getenv MoreWorlds.both_keys)
              ltac:(do 8 right; left; reflexivity)
              (λ _ _, eq_refl) (λ _ _, eq_refl) eq_refl)
    as [_ (tr & tr' & key & name & level & Hkey & _ & Hrun & _)].
  injection Hkey as <-. by exists tr, tr', name, level.
Defined.



(** No main function does what the top level of its script does: in no
    world does it end the process, read the environment, import a module or
    configure the SDK, whatever the calls it makes answer. *)
Theorem main_functions_leave_top_level_alone (main : M unit) (w : World) (tr : list event)
    (Hmain : In main main_functions) :
  (∀ code, fst (main w tr) ≠ Exit code)
  ∧ ∃ tr', snd (main w tr) = tr ++ tr' ∧ calls top_level tr' = 0.
Proof.
  destruct (main_functions_confined main Hmain w tr) as [Hexit (tr' & Htr & Hall)].
  split; [done|]. exists tr'. split; [done|].
  apply (calls_none top_level (λ e, negb (top_level e))); [|done].
  intros e. apply negb_true_iff.
Qed.

Lemma main_functions_leave_top_level_alone_witness :
  ∃ tr', snd (Examples.extractionExample (Worlds.make Worlds.nothing_holds) []) = [] ++ tr'
         ∧ calls top_level tr' = 0.
Proof.
  exact (proj2 (main_functions_leave_top_level_alone Examples.extractionExample _ []
                  ltac:(do 7 right; left; reflexivity))).
Defined.

End top_level.

(** ** The variables examples and [quickStart] *)

Section variables_run.
Import JS Script RunFacts MoreRunFacts.

(** Both variables examples print what [agent.getVariable] returns, as it
    is: the four variables are read in the order [username], [password],
    [greeting], [apiKey], and the lines for [password] and [apiKey] hold
    the value read between double quotes, followed by the words
    [(sensitive ...)]; the script itself masks nothing.  This holds whether
    or not the assertion that follows fails. *)
Theorem variables_example_prints_values (main : M unit) (w : World)
    (Hmain : In main variables_examples)
    (Hw : succeeds w) :
  let run := main w [] in
  let reads := variables_read w (snd run) in
  reads.*1 = ["username"; "password"; "greeting"; "apiKey"]
  ∧ (∀ value, reads !! 1 = Some ("password", value) →
       In [VStr ("   password: " +:+ quoted (show_optional value)
                 +:+ " (sensitive - masked in logs)" +:+ nl)] (logged (snd run)))
  ∧ (∀ value, reads !! 3 = Some ("apiKey", value) →
       In [VStr ("   apiKey: " +:+ quoted (show_optional value) +:+ " (sensitive)" +:+ nl)]
          (logged (snd run)))
  ∧ last (snd run) = Some (Ev BrowserClose).
Proof.
  intros run reads. subst reads.
  remember run as r eqn:Hrun. subst run.
  unfold variables_examples in Hmain. simpl in Hmain.
  repeat destruct Hmain as [<-|Hmain]; try done.
  all: unfold SdkExamples.variablesExample, Examples.variablesExample in Hrun.
  all: unfold_run_in Hrun; cbv [app] in Hrun.
  all: repeat first [name_variable Hrun | take_verdict Hrun | run_step Hrun Hw].
  all: destruct r as [out tr]; injection Hrun as Hout Htr; cbn [fst snd].
  all: remember (variables_read w tr) as reads eqn:Hres; rewrite Htr in Hres;
    cbv [variables_read variables_read_from app] in Hres;
    rewrite <- ?Hvalue, <- ?Hvalue0, <- ?Hvalue1, <- ?Hvalue2 in Hres;
    clear Hvalue Hvalue0 Hvalue1 Hvalue2.
  all: remember (logged tr) as lines eqn:Hlines; rewrite Htr in Hlines;
    cbv -[String.append nl quoted dq show_optional] in Hlines.
  all: assert (last tr = Some (Ev BrowserClose)) as Hlast by (by rewrite Htr).
  all: clear Htr; subst.
  all: split_and!; [reflexivity| | |exact Hlast].
  all: intros v [= <-]; find_line.
Qed.

(** A store that answers with the real values. *)
Lemma variables_example_prints_values_witness :
  In [VStr ("   password: " +:+ quoted "secret_sauce" +:+ " (sensitive - masked in logs)" +:+ nl)]
     (logged (snd (Examples.variablesExample (Worlds.make MoreWorlds.password_stored) []))).
Proof.
  exact (proj1 (proj2 (variables_example_prints_values Examples.variablesExample
                         (Worlds.make MoreWorlds.password_stored)
                         ltac:(right; left; reflexivity) (make_succeeds _)))
           (Some "secret_sauce") eq_refl).
Defined.

(** [quickStart] does not look at what [agent.login] returns: when the
    login answers [false] (and nothing throws), it still logs
    [Login successful!], goes on to the assertion and the extraction, and
    ends normally without a line on [console.error]. *)
Theorem quickStart_ignores_login_result (w : World) (answer : bool)
    (Hw : succeeds w)
    (Hlogin : ∀ tr opts, respond w _ tr (AgentLogin opts) = Ok answer)
    (Hassert : ∀ tr instruction, respond w _ tr (AgentAssert instruction) = None) :
  let run := SdkExamples.quickStart w [] in
  fst run = Ret tt
  ∧ In [VStr ("   Login successful!" +:+ nl)] (logged (snd run))
  ∧ asserted (snd run) = ["Products page is visible"]
  ∧ extracted (snd run) = [("the first product name", "productName")]
  ∧ errors_logged (snd run) = [].
Proof.
  intros run. remember run as r eqn:Hrun. subst run.
  unfold SdkExamples.quickStart in Hrun.
  unfold_run_in Hrun. cbv [app] in Hrun.
  repeat first
    [ progress (rewrite ?Hlogin, ?Hassert in Hrun; cbv beta iota in Hrun)
    | name_variable Hrun
    | run_step Hrun Hw ].
  destruct r as [out tr]; injection Hrun as Hout Htr; cbn [fst snd].
  remember (logged tr) as lines eqn:Hlines; rewrite Htr in Hlines;
    cbv -[String.append nl quoted dq show_optional] in Hlines.
  rewrite Htr. clear Htr. subst.
  split_and!; [returns_unit|find_line|reflexivity|reflexivity|reflexivity].
Qed.

(** The login is refused, and [quickStart] runs to its end. *)
Lemma quickStart_ignores_login_result_witness :
  fst (SdkExamples.quickStart (Worlds.make Worlds.login_refused) []) = Ret tt
  ∧ In [VStr ("   Login successful!" +:+ nl)]
       (logged (snd (SdkExamples.quickStart (Worlds.make Worlds.login_refused) []))).
Proof.
  pose proof (quickStart_ignores_login_result (Worlds.make Worlds.login_refused) false
                (make_succeeds _) (λ _ _, eq_refl) (λ _ _, eq_refl)) as (H1 & H2 & _).
  exact (conj H1 H2).
Defined.

End variables_run.

(** ** [fileUploadExample] *)

Section file_upload.
Import JS Script RunFacts ConfinedFacts StepFacts FinallyFacts.

(** [fileUploadExample] writes its test file before it launches the
    browser: it asks whether the directory [test-files] next to the script
    exists, creates it (with [recursive: true]) only when it does not, writes
    [test-upload.txt] into it, and only then launches the browser and creates
    the agent, with that directory as [testDataDir].  Nothing is written,
    created or launched after that. *)
Theorem test_file_precedes_browser (w : World) (Hprepares : succeeds_on prepares w) :
  let testDir := resolve w [dirname w (fileURLToPath w (import_meta_url w)); "test-files"] in
  let testFilePath := resolve w [testDir; "test-upload.txt"] in
  let there := respond w _ [] (ExistsSync testDir) in
  let run := Examples.fileUploadExample w [] in
  ∃ (data : string) (tr' : list event),
    snd run
    = Ev (ExistsSync testDir)
      :: (if there then [] else [Ev (MkdirSync testDir true)])
      ++ Ev (WriteFileSync testFilePath data)
      :: Ev (ConsoleLog [VStr ("Created test file: " +:+ testFilePath +:+ nl)])
      :: Ev (ChromiumLaunch false) :: Ev BrowserNewContext :: Ev ContextNewPage
      :: Ev (CreateAgent {| model := "gemini-2.5-pro"; variables := []; sensitiveKeys := [];
                            testDataDir := Some testDir |})
      :: tr'
    ∧ calls prepares tr' = 0.
Proof.
  intros testDir testFilePath there run. subst run.
  remember (Examples.fileUploadExample w []) as r eqn:Hrun.
  unfold Examples.fileUploadExample in Hrun.
  do 4 head_step Hrun Hprepares. fold testDir testFilePath in Hrun.
  subst there. destruct (respond w bool [] (ExistsSync testDir)).
  all: cbn [negb] in Hrun; cbv beta iota in Hrun.
  all: repeat head_step Hrun Hprepares.
  all: lazymatch type of Hrun with
       | _ = try_finally ?body ?fin ?w' ?tr =>
           destruct (confined_try_finally (λ e, negb (prepares e)) body fin) with w' tr
             as [_ (tr' & Htr & Hall)]; [confine..|]
       end.
  all: rewrite <- Hrun in Htr; clear Hrun; rewrite Htr; clear Htr.
  all: eexists _, tr'; split; [by rewrite <- !List.app_assoc|].
  all: apply (calls_none prepares (λ e, negb (prepares e))); [|done].
  all: intros e; apply negb_true_iff.
Qed.

(** When [writeFileSync] throws, [fileUploadExample] throws that error
    before it has launched a browser or logged a line, and the script's
    [.catch(console.error)] logs the error. *)
Theorem failed_write_launches_nothing (w : World) (e : Error)
    (Hmkdir : succeeds_on makes_directory w)
    (Hwrite : fails_on writes_file e w) :
  let run := Examples.fileUploadExample w [] in
  let handled := promise_catch Examples.fileUploadExample
                   (λ error, console_error [VError error]) w [] in
  fst run = Throw e
  ∧ calls launches_browser (snd run) = 0
  ∧ calls writes_file (snd run) = 1
  ∧ logged (snd run) = []
  ∧ handled = (Ret tt, snd run ++ [Ev (ConsoleError [VError e])]).
Proof.
  intros run handled. subst run handled. unfold promise_catch, try_catch.
  remember (Examples.fileUploadExample w []) as r eqn:Hrun.
  unfold Examples.fileUploadExample in Hrun.
  repeat head_step Hrun Hmkdir.
  all: lazymatch type of Hrun with
       | _ = (await ?c ≫= ?f) ?w' ?tr =>
           head_by Hrun (await_bind_err c f w' tr e (fails_on_err c w' tr e (Hwrite _ tr c eq_refl)))
       end.
  all: subst r; cbn [fst snd]; unfold console_error, ask.
  all: split_and!; try reflexivity.
  all: match goal with |- (Ret ?u, _) = _ => by destruct u end.
Qed.

End file_upload.

Section file_upload_witnesses.
Import JS Script WorldFacts.

(** The directory is missing: it is created, then the file is written. *)
Lemma test_file_precedes_browser_witness :
  ∃ (data : string) (tr' : list event),
    snd (Examples.fileUploadExample (Worlds.make Worlds.quiet) [])
    = Ev (ExistsSync "/repo/examples/test-files")
      :: Ev (MkdirSync "/repo/examples/test-files" true)
      :: Ev (WriteFileSync "/repo/examples/test-files/test-upload.txt" data)
      :: Ev (ConsoleLog
               [VStr ("Created test file: /repo/examples/test-files/test-upload.txt" +:+ nl)])
      :: Ev (ChromiumLaunch false) :: Ev BrowserNewContext :: Ev ContextNewPage
      :: Ev (CreateAgent {| model := "gemini-2.5-pro"; variables := []; sensitiveKeys := [];
                            testDataDir := Some "/repo/examples/test-files" |})
      :: tr'.
Proof.
  destruct (test_file_precedes_browser (Worlds.make Worlds.quiet) (make_succeeds_on _ _))
    as (data & tr' & Hrun & _).
  exists data, tr'. exact Hrun.
Defined.

Lemma writes_file_thrown (e : Error) (A : Type) (c : call A) (a : A) :
  writes_file (Ev c) = true → error_of c (FailingWorlds.thrown e c a) = Some e.
Proof. by destruct c. Qed.

Lemma makes_directory_not_writes_file (ev : event) :
  makes_directory ev = true → writes_file ev = false.
Proof. destruct ev as [A c]. by destruct c. Qed.

(** The disk is full. *)
Lemma failed_write_launches_nothing_witness :
  let w := FailingWorlds.make writes_file FailingWorlds.disk_full Worlds.quiet in
  fst (Examples.fileUploadExample w []) = Throw FailingWorlds.disk_full
  ∧ calls launches_browser (snd (Examples.fileUploadExample w [])) = 0.
Proof.
  intros w.
  pose proof (failed_write_launches_nothing w FailingWorlds.disk_full
                (failing_succeeds_on _ _ _ _ makes_directory_not_writes_file)
                (failing_fails_on _ _ _ (writes_file_thrown _))) as (H1 & H2 & _).
  exact (conj H1 H2).
Defined.

End file_upload_witnesses.

(** ** Runs in which nothing fails *)

Module QuietFacts.
Import JS Script.

Section quiet.
Context (w : World).

Lemma runs_quietly_ret {A} (a : A) : runs_quietly w (mret a).
Proof. intros tr. exists a, []. by rewrite app_nil_r. Qed.

Lemma runs_quietly_world : runs_quietly w world.
Proof. intros tr. exists w, []. by rewrite app_nil_r. Qed.

Lemma runs_quietly_bind {A B} (m : M A) (f : A → M B) :
  runs_quietly w m → (∀ a, runs_quietly w (f a)) → runs_quietly w (m ≫= f).
Proof.
  intros Hm Hf tr. destruct (Hm tr) as (a & tr1 & Hrun1 & Herr1).
  destruct (Hf a (tr ++ tr1)) as (b & tr2 & Hrun2 & Herr2).
  exists b, (tr1 ++ tr2). unfold mbind, M_bind. rewrite Hrun1, Hrun2, <- app_assoc.
  split; [done|]. unfold errors_logged in *. by rewrite omap_app, Herr1, Herr2.
Qed.

Lemma runs_quietly_ask {A} (c : call A) :
  errors_logged [Ev c] = [] → runs_quietly w (ask c).
Proof. intros Hc tr. by exists (respond w A tr c), [Ev c]. Qed.

Lemma runs_quietly_await {A} (c : call (result A)) :
  errors_logged [Ev c] = [] → (∀ tr, is_ok (respond w _ tr c)) → runs_quietly w (await c).
Proof.
  intros Hc Hok tr. destruct (Hok tr) as [a Ha]. exists a, [Ev c].
  unfold await, ask, mbind, M_bind. by rewrite Ha.
Qed.

(** A call whose answer is known. *)
Lemma runs_quietly_await_bind {A B} (c : call (result A)) (f : A → M B) (a : A) :
  errors_logged [Ev c] = [] → (∀ tr, respond w _ tr c = Ok a) →
  runs_quietly w (f a) → runs_quietly w (await c ≫= f).
Proof.
  intros Hc Hok Hf tr. destruct (Hf (tr ++ [Ev c])) as (b & tr2 & Hrun2 & Herr2).
  exists b, (Ev c :: tr2). unfold await, ask, mbind, M_bind. rewrite Hok.
  cbv beta iota. unfold mret, M_ret. rewrite Hrun2, <- app_assoc.
  split; [done|]. unfold errors_logged in *.
  change (Ev c :: tr2) with ([Ev c] ++ tr2). by rewrite omap_app, Hc, Herr2.
Qed.

Lemma runs_quietly_agent_assert (instruction : string) :
  (∀ tr, respond w _ tr (AgentAssert instruction) = None) →
  runs_quietly w (agent_assert instruction).
Proof.
  intros Hholds tr. exists tt, [Ev (AgentAssert instruction)].
  unfold agent_assert, ask, mbind, M_bind. by rewrite Hholds.
Qed.

Lemma runs_quietly_try_catch {A} (m : M A) (h : Error → M A) :
  runs_quietly w m → runs_quietly w (try_catch m h).
Proof.
  intros Hm tr. destruct (Hm tr) as (a & tr1 & Hrun1 & Herr1).
  exists a, tr1. unfold try_catch. by rewrite Hrun1.
Qed.

Lemma runs_quietly_try_finally {A} (m : M A) (f : M unit) :
  runs_quietly w m → runs_quietly w f → runs_quietly w (try_finally m f).
Proof.
  intros Hm Hf tr. destruct (Hm tr) as (a & tr1 & Hrun1 & Herr1).
  destruct (Hf (tr ++ tr1)) as (u & tr2 & Hrun2 & Herr2).
  exists a, (tr1 ++ tr2). unfold try_finally. rewrite Hrun1, Hrun2, <- app_assoc.
  split; [done|]. unfold errors_logged in *. by rewrite omap_app, Herr1, Herr2.
Qed.

Lemma runs_quietly_for_each {A} (l : list A) (f : A → M unit) :
  (∀ a, runs_quietly w (f a)) → runs_quietly w (for_each l f).
Proof.
  intros Hf. induction l as [|x l IH]; [apply runs_quietly_ret|].
  simpl. apply runs_quietly_bind; [apply Hf|]. intros _. apply IH.
Qed.

End quiet.

(** Take a script apart, in a world where the calls that can throw
    succeed ([Hw]), every asserted condition holds ([Hholds]) and the login
    goes through ([Hlogin]). *)
Ltac run_quietly Hw Hholds Hlogin :=
  repeat
    lazymatch goal with
    | |- runs_quietly _ (mret _) => apply runs_quietly_ret
    | |- runs_quietly _ world => apply runs_quietly_world
    | |- runs_quietly _ (ask _) => apply runs_quietly_ask; reflexivity
    | |- runs_quietly _ (await ?c) =>
        apply runs_quietly_await;
        [reflexivity|let tr := fresh "tr" in intros tr; exact (Hw _ tr c)]
    | |- runs_quietly _ (await (AgentLogin _) ≫= _) =>
        apply (runs_quietly_await_bind _ _ _ true); [reflexivity|intros ?; apply Hlogin|];
        cbv beta iota delta [negb]
    | |- runs_quietly _ (agent_assert _) =>
        apply runs_quietly_agent_assert; intros ?; apply Hholds
    | |- runs_quietly _ (try_catch _ _) => apply runs_quietly_try_catch
    | |- runs_quietly _ (try_finally _ _) => apply runs_quietly_try_finally
    | |- runs_quietly _ (for_each _ _) => apply runs_quietly_for_each; intros ?
    | |- runs_quietly _ (_ ≫= _) => apply runs_quietly_bind; [|intros ?]
    | |- runs_quietly _ (if ?b then _ else _) => destruct b
    | |- runs_quietly _ (match ?o with Some _ => _ | None => _ end) => destruct o
    | |- runs_quietly _ (match ?s with EmptyString => _ | String _ _ => _ end) => destruct s
    | |- runs_quietly _ (log _) => unfold log, console_log
    | |- runs_quietly _ (console_log _) => unfold console_log
    | |- runs_quietly _ (agent_step _ _ _) => unfold agent_step
    | |- runs_quietly _ __dirname => unfold __dirname
    | |- runs_quietly _ (path_resolve _) => unfold path_resolve
    | |- runs_quietly _ (Examples.extract_and_show _ _ _) => unfold Examples.extract_and_show
    | |- runs_quietly _ (Examples.extract_and_show_start _ _ _ _) =>
        unfold Examples.extract_and_show_start
    | |- runs_quietly _ (Examples.show_extracted _) => unfold Examples.show_extracted
    end.

End QuietFacts.

Section happy_path.
Import JS Script QuietFacts.

(** When no call throws, every asserted condition holds and the login goes
    through, every main function runs to its end: it returns, and nothing is
    logged on [console.error]. *)
Theorem main_functions_run_quietly (main : M unit) (w : World)
    (Hmain : In main main_functions)
    (Hw : succeeds w)
    (Hholds : ∀ tr instruction, respond w _ tr (AgentAssert instruction) = None)
    (Hlogin : ∀ tr opts, respond w _ tr (AgentLogin opts) = Ok true) :
  let run := main w [] in
  fst run = Ret tt ∧ errors_logged (snd run) = [].
Proof.
  intros run. subst run.
  assert (runs_quietly w main) as Hquiet.
  { unfold main_functions in Hmain. simpl in Hmain.
    repeat destruct Hmain as [<-|Hmain]; try done.
    all: unfold SdkExamples.quickStart, SdkExamples.customActionsExample,
           SdkExamples.variablesExample, Examples.basicExample, Examples.selfHealingExample,
           Examples.variablesExample, Examples.fileUploadExample, Examples.extractionExample,
           Examples.loginExample.
    all: run_quietly Hw Hholds Hlogin. }
  destruct (Hquiet []) as ([] & tr' & -> & Herr). done.
Qed.

Lemma main_functions_run_quietly_witness :
  fst (Examples.extractionExample (Worlds.make Worlds.quiet) []) = Ret tt
  ∧ errors_logged (snd (Examples.extractionExample (Worlds.make Worlds.quiet) [])) = [].
Proof.
  exact (main_functions_run_quietly Examples.extractionExample (Worlds.make Worlds.quiet)
           ltac:(do 7 right; left; reflexivity) (RunFacts.make_succeeds _)
           (λ _ _, eq_refl) (λ _ _, eq_refl)).
Defined.

End happy_path.

(** ** [extractionExample] as a whole *)

Module LoopFacts.
Import JS Script SummaryFacts.





End LoopFacts.

Section extraction.
Import JS Script RunFacts MoreRunFacts LoopFacts.



End extraction.

(** ** The order of loading *)

Module ExtendsFacts.
Import JS Script ConfinedFacts.

Lemma extends_confined {A} (allowed : event → bool) (m : M A) : confined allowed m → extends m.
Proof. intros Hm w tr. destruct (Hm w tr) as [_ (tr' & Htr & _)]. eauto. Qed.

Lemma extends_exit {A} (code : Z) : extends (process_exit code : M A).
Proof. intros w tr. by eexists. Qed.

Lemma extends_bind {A B} (m : M A) (f : A → M B) :
  extends m → (∀ a, extends (f a)) → extends (m ≫= f).
Proof.
  intros Hm Hf w tr. destruct (Hm w tr) as [tr1 Htr1].
  unfold mbind, M_bind. destruct (m w tr) as [[a|e|code] tr'] eqn:Hrun; simpl in *; subst tr'.
  - destruct (Hf a w (tr ++ tr1)) as [tr2 Htr2]. exists (tr1 ++ tr2).
    by rewrite Htr2, <- app_assoc.
  - eauto.
  - eauto.
Qed.

(** What runs after [m] leaves what [m] did in place. *)
Lemma bind_extends {A B} (m : M A) (f : A → M B) (w : World) (tr : list event) :
  (∀ a, extends (f a)) → ∃ tr', snd ((m ≫= f) w tr) = snd (m w tr) ++ tr'.
Proof.
  intros Hf. unfold mbind, M_bind. destruct (m w tr) as [[a|e|code] tr1]; simpl.
  - apply Hf.
  - exists []. by rewrite app_nil_r.
  - exists []. by rewrite app_nil_r.
Qed.

Lemma extends_api_key_guard (apiKey : option string) (error hint : string) :
  extends (api_key_guard apiKey error hint).
Proof.
  unfold api_key_guard. destruct apiKey as [[|c k]|].
  2: { apply (extends_confined (λ _, true)), confined_ret. }
  all: repeat (apply extends_bind; [apply (extends_confined (λ _, true)); confine|intros ?]).
  all: apply extends_exit.
Qed.

(** What follows the imports in a script only adds to the trace. *)
Lemma extends_rest (key : M string) (cfg : string → SdkConfig) (main : M unit) :
  key = anthropic_api_key ∨ (∃ error, key = google_api_key error) →
  In main main_functions →
  extends (apiKey ← key; await (ConfigureSdk (cfg apiKey));;
           promise_catch main (λ error, console_error [VError error])).
Proof.
  intros Hkey Hmain. apply extends_bind.
  - destruct Hkey as [->|[error ->]]; unfold anthropic_api_key, google_api_key.
    all: repeat (apply extends_bind; [apply (extends_confined (λ _, true)); confine|intros ?]).
    all: apply extends_api_key_guard.
  - intros apiKey. apply extends_bind; [apply (extends_confined (λ _, true)); confine|].
    intros _. eapply extends_confined, TopLevelFacts.promise_catch_confined, Hmain.
Qed.

(** The head of every script, in any world: either the import of
    Playwright is rejected, or the SDK is imported next. *)
Lemma load_head (dotenv : list string) (w : World) (tr : list event) :
  let path := resolve w (dirname w (fileURLToPath w (import_meta_url w)) :: dotenv) in
  (∃ e, load dotenv w tr
        = (Throw e, tr ++ [Ev (DotenvConfig path); Ev (Import "playwright")]))
  ∨ snd (load dotenv w tr)
    = tr ++ [Ev (DotenvConfig path); Ev (Import "playwright"); Ev (Import "@shiplightai/sdk")].
Proof.
  intros path. subst path. unfold load.
  rewrite StepFacts.dirname_bind, StepFacts.path_resolve_bind, StepFacts.ask_bind.
  unfold await, ask, mbind, M_bind.
  destruct (respond w _ _ (Import "playwright")) as [[]|e]; simpl.
  - right. destruct (respond w _ _ (Import "@shiplightai/sdk")) as [[]|e]; simpl;
      by rewrite <- !app_assoc.
  - left. exists e. by rewrite <- !app_assoc.
Qed.

End ExtendsFacts.

Section load_order.
Import JS Script ExtendsFacts.

(** In every script and in every world, [.env] is loaded before Playwright
    is imported, and Playwright before the SDK: the first call is
    [config({ path })] with the [.env] next to the script (the scripts of
    [sdk-examples/]) or one directory up (those of [examples/]), the second
    is [import('playwright')], and the third, if there is one, is
    [import('@shiplightai/sdk')]; no environment variable is read and no
    browser is launched before that. *)
Theorem dotenv_is_loaded_first (dotenv : list string) (script : M unit) (w : World)
    (Hscript : In (dotenv, script) dotenv_files) :
  ∃ tr' : list event,
    snd (script w [])
    = Ev (DotenvConfig
            (resolve w (dirname w (fileURLToPath w (import_meta_url w)) :: dotenv)))
      :: Ev (Import "playwright") :: tr'
    ∧ (tr' = [] ∨ ∃ tr'', tr' = Ev (Import "@shiplightai/sdk") :: tr'').
Proof.
  unfold dotenv_files in Hscript. simpl in Hscript.
  repeat destruct Hscript as [[= <- <-]|Hscript]; try done.
  all: unfold SdkExamples.quickStart_ts, SdkExamples.customActions_ts,
         SdkExamples.variablesExample_ts, Examples.extractionExample_ts,
         Examples.basicUsage_ts, Examples.selfHealingExample_ts,
         Examples.variablesExample_ts, Examples.fileOperationsExample_ts,
         Examples.loginExample_ts.
  all: match goal with
       | |- context [(load ?dotenv ≫= ?f) ?w' []] =>
           destruct (load_head dotenv w' []) as [[e Hload]|Hload];
           [rewrite (TopLevelFacts.bind_throw (load dotenv) f w' [] _ e Hload); exists []
           |destruct (bind_extends (load dotenv) f w' []) as [tr2 Htr2];
            [intros _;
             match goal with
             | |- extends (?key ≫= λ apiKey, await (ConfigureSdk ?cfg);; ?handled) =>
                 apply (extends_rest key (λ apiKey, cfg))
             end;
             [first [by left | right; by eexists] | unfold main_functions; simpl; tauto]
            |rewrite Htr2, Hload; exists (Ev (Import "@shiplightai/sdk") :: tr2)]]
       end.
  all: split; [done|]; eauto.
Qed.

End load_order.

Section load_order_witness.
Import JS Script.

(** [quickStart.ts] loads the [.env] next to it. *)
Lemma dotenv_is_loaded_first_witness :
  ∃ tr', snd (SdkExamples.quickStart_ts (Worlds.make Worlds.quiet) [])
         = Ev (DotenvConfig "/repo/examples/.env") :: Ev (Import "playwright") :: tr'.
Proof.
  destruct (dotenv_is_loaded_first [".env"] SdkExamples.quickStart_ts
              (Worlds.make Worlds.quiet) ltac:(left; reflexivity))
    as (tr' & Hrun & _).
  exists tr'. exact Hrun.
Defined.

End load_order_witness.

(** ** The custom actions, one after the other *)

Module ActionFacts.
Import JS Script SdkExamples.

Lemma execute_run (action : CustomAction) (ctx : Ctx) (w : World) (tr : list event) :
  ∃ r, execute action ctx w tr = (Ret r, tr ++ [Ev (ConsoleLog [VStr (announces action)])])
       ∧ success r.1 = true
       ∧ variableStore r.2 = store_after action (variableStore ctx).
Proof.
  destruct action; eexists.
  all: unfold execute, get_email_verification_code, send_sms_code, check_user_status.
  all: RunFacts.unfold_run; (split; [|split]); reflexivity.
Qed.

Lemma execute_all_run (actions : list CustomAction) (ctx : Ctx) (w : World) (tr : list event) :
  ∃ ctx', execute_all actions ctx w tr
          = (Ret ctx', tr ++ map (λ action, Ev (ConsoleLog [VStr (announces action)])) actions)
          ∧ variableStore ctx' = foldl (λ variables action, store_after action variables)
                                   (variableStore ctx) actions.
Proof.
  revert ctx tr. induction actions as [|action actions IH]; intros ctx tr.
  { exists ctx. by rewrite app_nil_r. }
  destruct (execute_run action ctx w tr) as (r & Hrun & _ & Hstore).
  destruct (IH r.2 (tr ++ [Ev (ConsoleLog [VStr (announces action)])])) as (ctx' & Hrest & Hctx').
  exists ctx'. cbn [execute_all]. unfold mbind, M_bind. rewrite Hrun, Hrest.
  split; [by rewrite <- app_assoc|]. by rewrite Hctx', Hstore.
Qed.

(** Two actions that set the same variable set it to the same value. *)
Lemma sets_same_value (a b : CustomAction) : (sets a).1 = (sets b).1 → (sets a).2 = (sets b).2.
Proof. by destruct a, b. Qed.

Lemma stored_in (actions : list CustomAction) (variables : VariableStore.t)
    (action : CustomAction) :
  In action actions →
  foldl (λ variables action, store_after action variables) variables actions !! (sets action).1
  = Some {| VariableStore.value := (sets action).2; VariableStore.sensitive := false |}.
Proof.
  induction actions as [|x l IH] using rev_ind; [done|].
  intros Hin. rewrite foldl_app. cbn [foldl]. unfold store_after at 1, VariableStore.exec. simpl.
  destruct (decide ((sets x).1 = (sets action).1)) as [Hsame|Hother].
  - rewrite Hsame, lookup_insert_eq. by rewrite (sets_same_value _ _ Hsame).
  - rewrite lookup_insert_ne by done. apply IH.
    apply in_app_or in Hin as [Hin|[->|[]]]; done.
Qed.

Lemma stored_out (actions : list CustomAction) (variables : VariableStore.t) (name : string) :
  (∀ action, In action actions → (sets action).1 ≠ name) →
  foldl (λ variables action, store_after action variables) variables actions !! name
  = variables !! name.
Proof.
  induction actions as [|x l IH] using rev_ind; [done|].
  intros Hout. rewrite foldl_app. cbn [foldl]. unfold store_after at 1, VariableStore.exec. simpl.
  rewrite lookup_insert_ne by (apply Hout, in_or_app; right; by left).
  apply IH. intros action Hin. apply Hout, in_or_app. by left.
Qed.

End ActionFacts.

Section actions_in_sequence.
Import JS Script SdkExamples ActionFacts.

(** However many times and in whatever order the agent runs the three
    custom actions, each run logs one line and succeeds, and afterwards every
    variable an action of the run sets holds that action's fixed value, not
    marked sensitive, whatever it held before, while every other variable of
    the store is as it was. *)
Theorem custom_actions_compose
    (actions : list CustomAction) (ctx : Ctx) (w : World) (tr : list event) :
  ∃ (ctx' : Ctx) (lines : list string),
    execute_all actions ctx w tr
    = (Ret ctx', tr ++ map (λ line, Ev (ConsoleLog [VStr line])) lines)
    ∧ length lines = length actions
    ∧ (∀ action, In action actions →
         variableStore ctx' !! (sets action).1
         = Some {| VariableStore.value := (sets action).2; VariableStore.sensitive := false |}
         ∧ VariableStore.eval (VariableStore.get (sets action).1) (variableStore ctx')
           = Some (sets action).2)
    ∧ (∀ name, (∀ action, In action actions → (sets action).1 ≠ name) →
         variableStore ctx' !! name = variableStore ctx !! name).
Proof.
  destruct (execute_all_run actions ctx w tr) as (ctx' & Hrun & Hstore).
  exists ctx', (map announces actions). rewrite map_map, length_map.
  split; [done|]. split; [done|]. rewrite Hstore. split.
  - intros action Hin. unfold VariableStore.eval, VariableStore.get. simpl.
    by rewrite (stored_in _ _ _ Hin).
  - intros name Hout. by apply stored_out.
Qed.

End actions_in_sequence.

Section cart_errors.
Import JS Script StepFacts.



End cart_errors.

(** ** How errors are reported *)

Module ReportFacts.
Import JS Script ConfinedFacts StepFacts.

Lemma errors_logged_app (l1 l2 : list event) :
  errors_logged (l1 ++ l2) = errors_logged l1 ++ errors_logged l2.
Proof. unfold errors_logged. apply omap_app. Qed.

Lemma errors_logged_none (tr : list event) :
  forallb (λ e, negb (logs_error e)) tr = true → errors_logged tr = [].
Proof.
  induction tr as [|[A c] tr IH]; [done|]. simpl. intros [Hc Htr]%andb_prop.
  unfold errors_logged in *. simpl. rewrite (IH Htr). by destruct c.
Qed.

(** A [try] block that logs no error itself, without a [catch] block. *)
Lemma try_reports {A} (body : M A) (w : World) (tr : list event) :
  confined (λ e, negb (logs_error e)) body →
  ∃ o tr', body w tr = (o, tr ++ tr') ∧ reported None o (errors_logged tr').
Proof.
  intros Hbody. destruct (Hbody w tr) as [Hexit (tr' & Htr & Hall)].
  destruct (body w tr) as [o tr0]. simpl in *. subst tr0. exists o, tr'.
  split; [done|]. rewrite (errors_logged_none _ Hall).
  destruct o as [a|e|code]; try done. by destruct (Hexit code).
Qed.

(** [try { body } catch (error) { console.error(words, error); throw error; }] *)
Lemma try_catch_reports {A} (body : M A) (words : string) (w : World) (tr : list event) :
  confined (λ e, negb (logs_error e)) body →
  ∃ o tr', try_catch body (λ error, console_error [VStr words; VError error];; throw error) w tr
           = (o, tr ++ tr')
           ∧ reported (Some words) o (errors_logged tr').
Proof.
  intros Hbody. destruct (Hbody w tr) as [Hexit (tr' & Htr & Hall)].
  unfold try_catch. destruct (body w tr) as [[a|e|code] tr0]; simpl in *; subst tr0.
  - exists (Ret a), tr'. split; [done|]. apply (errors_logged_none _ Hall).
  - exists (Throw e), (tr' ++ [Ev (ConsoleError [VStr words; VError e])]).
    unfold console_error. rewrite ask_bind. unfold throw.
    split; [by rewrite <- app_assoc|]. simpl.
    by rewrite errors_logged_app, (errors_logged_none _ Hall).
  - by destruct (Hexit code).
Qed.

(** A [finally] block whose calls succeed leaves the outcome as it is. *)
Lemma finally_keeps {A} (m : M A) (fin : M unit) (w : World) (tr tr' tr'' : list event)
    (o : outcome A) (prefix : option string) :
  m w tr = (o, tr ++ tr') → reported prefix o (errors_logged tr') →
  fin w (tr ++ tr') = (Ret tt, (tr ++ tr') ++ tr'') → errors_logged tr'' = [] →
  try_finally m fin w tr = (o, tr ++ tr' ++ tr'')
  ∧ reported prefix o (errors_logged (tr' ++ tr'')).
Proof.
  intros Hm Hreported Hfin Hquiet. unfold try_finally. rewrite Hm.
  rewrite errors_logged_app, Hquiet, app_nil_r. split; [|done].
  destruct o as [a|e|code]; [| |done]; by rewrite Hfin, <- app_assoc.
Qed.

Lemma close_run (w : World) (tr : list event) :
  succeeds_on closes_browser w →
  await BrowserClose w tr = (Ret tt, tr ++ [Ev BrowserClose]).
Proof.
  intros Hw. destruct (Hw _ tr BrowserClose eq_refl) as [[] Hclose].
  unfold await, ask, mbind, M_bind. by rewrite Hclose.
Qed.

Lemma wait_close_run (ms : Z) (w : World) (tr : list event) :
  succeeds_on waits w → succeeds_on closes_browser w →
  (await (PageWaitForTimeout ms);; await BrowserClose) w tr
  = (Ret tt, tr ++ [Ev (PageWaitForTimeout ms); Ev BrowserClose]).
Proof.
  intros Hwaits Hcloses. destruct (Hwaits _ tr (PageWaitForTimeout ms) eq_refl) as [[] Hwait].
  rewrite (await_bind_ok _ _ _ _ _ Hwait), close_run by done. by rewrite <- app_assoc.
Qed.

End ReportFacts.

Section reports.
Import JS Script ConfinedFacts StepFacts ReportFacts.

(** How the scripts report an error.  When the preparations before the
    [try] block and the calls of the [finally] block do not throw, a main
    function either returns, with nothing on [console.error], or throws the
    error its [try] block threw; that error is then on [console.error] once,
    after the words of the function's [catch] block, or not at all when the
    function has no [catch] block.  The script's [.catch(console.error)]
    logs the error once more and ends normally: an error is printed twice by
    the seven scripts with a [catch] block and once by the other two. *)
Theorem errors_are_reported (main : M unit) (prefix : option string) (w : World)
    (Hmain : In (main, prefix) catch_blocks)
    (Hprepares : succeeds_on prepares w)
    (Hwaits : succeeds_on waits w)
    (Hcloses : succeeds_on closes_browser w) :
  let run := main w [] in
  let handled := promise_catch main (λ error, console_error [VError error]) w [] in
  reported prefix (fst run) (errors_logged (snd run))
  ∧ fst handled = Ret tt
  ∧ errors_logged (snd handled)
    = errors_logged (snd run)
      ++ match fst run with
         | Throw e => [[VError e]]
         | _ => []
         end.
Proof.
  intros run handled. subst run handled. unfold promise_catch. unfold try_catch at 1 2.
  remember (main w []) as r eqn:Hrun.
  unfold catch_blocks in Hmain. simpl in Hmain.
  repeat destruct Hmain as [[= <- <-]|Hmain]; try done.
  all: unfold SdkExamples.quickStart, SdkExamples.customActionsExample,
         SdkExamples.variablesExample, Examples.basicExample, Examples.selfHealingExample,
         Examples.variablesExample, Examples.fileUploadExample, Examples.extractionExample,
         Examples.loginExample in Hrun.
  all: repeat head_step Hrun Hprepares.
  all: lazymatch type of Hrun with
       | _ = try_finally (try_catch ?body (λ error, console_error [VStr ?words; _];; _)) ?fin
               ?w' ?tr =>
           destruct (try_catch_reports body words w' tr) as (o & tr' & Htry & Hreported);
           [confine|]
       | _ = try_finally ?body ?fin ?w' ?tr =>
           destruct (try_reports body w' tr) as (o & tr' & Htry & Hreported); [confine|]
       end.
  all: lazymatch type of Hrun with
       | _ = try_finally ?m (await BrowserClose) ?w' ?tr =>
           destruct (finally_keeps m (await BrowserClose) w' tr tr' _ o _ Htry Hreported
                       (close_run w' _ Hcloses) eq_refl) as [Hfinally Hall]
       | _ = try_finally ?m (await (PageWaitForTimeout ?ms);; await BrowserClose) ?w' ?tr =>
           destruct (finally_keeps m _ w' tr tr' _ o _ Htry Hreported
                       (wait_close_run ms w' _ Hwaits Hcloses) eq_refl) as [Hfinally Hall]
       end.
  all: rewrite Hfinally in Hrun; clear Hfinally Htry Hreported; subst r; cbn [fst snd].
  all: split; [rewrite errors_logged_app; exact Hall|].
  all: destruct o as [[]|e|code]; [| |by destruct Hall].
  all: unfold console_error, ask; cbn [fst snd].
  all: split; [by match goal with |- Ret ?u = Ret tt => destruct u end|].
  all: first [by rewrite app_nil_r | apply errors_logged_app].
Qed.

(** [loginExample] when the login is refused: the error is printed
    twice. *)
Lemma errors_are_reported_witness :
  errors_logged
    (snd (promise_catch Examples.loginExample (λ error, console_error [VError error])
            (Worlds.make Worlds.login_refused) []))
  = [[VStr "Login example failed:"; VError {| message := "Login failed" |}];
     [VError {| message := "Login failed" |}]].
Proof.
  etrans; [exact (proj2 (proj2
                    (errors_are_reported Examples.loginExample (Some "Login example failed:")
                       (Worlds.make Worlds.login_refused)
                       ltac:(do 8 right; left; reflexivity)
                       (WorldFacts.make_succeeds_on _ _) (WorldFacts.make_succeeds_on _ _)
                       (WorldFacts.make_succeeds_on _ _))))|].
  vm_compute. reflexivity.
Defined.

End reports.
